(** * A shallow embedding of [src/src/schema-encoder.ts] (SchemaEncoder of the
    EAS SDK) together with models of the pieces of [ethers] v5 and
    [multiformats] it calls. *)

From Stdlib Require Import String Ascii List Bool ZArith Lia.
From Stdlib Require Import Strings.Byte.
Import ListNotations.
Open Scope string_scope.
Open Scope Z_scope.
Set Warnings "-register-all".

(** ** JavaScript runtime *)
Module Js.

(** A computation that may throw: [Err] carries the thrown message. *)
Inductive result (A : Type) : Type :=
| Ok (a : A)
| Err (msg : string).
Arguments Ok {A} a.
Arguments Err {A} msg.

Definition bind {A B} (m : result A) (k : A -> result B) : result B :=
  match m with Ok a => k a | Err e => Err e end.

Notation "x <- m ;; k" := (bind m (fun x => k))
  (at level 61, m at next level, right associativity).

(** [try { ... } catch { ... }]. *)
Definition try_catch {A} (m : result A) (handler : string -> result A) : result A :=
  match m with Ok a => Ok a | Err e => handler e end.

(** JavaScript values, as far as the encoder handles them. [JBig] is an ethers
    [BigNumber] instance and [JBytes] an [Uint8Array]: both are objects. [JArr]
    is an [Array] (ethers' decoded [Result] is an [Array] too), [JObj] a plain
    object with its properties in order. *)
Inductive JsValue : Type :=
| JUndefined
| JNull
| JBool (b : bool)
| JNum (n : Z)
| JBig (n : Z)
| JStr (s : string)
| JBytes (bs : list byte)
| JArr (vs : list JsValue)
| JObj (props : list (string * JsValue)).

(** [typeof v]. *)
Definition typeof (v : JsValue) : string :=
  match v with
  | JUndefined => "undefined"
  | JBool _ => "boolean"
  | JNum _ => "number"
  | JStr _ => "string"
  | JNull | JBig _ | JBytes _ | JArr _ | JObj _ => "object"
  end.

(** [Array.isArray(v)]. *)
Definition isArray (v : JsValue) : bool :=
  match v with JArr _ => true | _ => false end.

(** A [string | null] property such as an ethers [ParamType.name]. *)
Definition name_value (n : option string) : JsValue :=
  match n with Some s => JStr s | None => JNull end.

(** Truthiness of a [string | null]. *)
Definition truthy_name (n : option string) : bool :=
  match n with Some s => negb (String.eqb s "") | None => false end.

(** [`${n}`] for a [string | null]. *)
Definition show_name (n : option string) : string :=
  match n with Some s => s | None => "null" end.

(** The characters of the regular-expression class [\s] that a string of 8-bit
    characters can hold: tab, line feed, vertical tab, form feed, carriage
    return, space and no-break space. *)
Definition is_ws (c : ascii) : bool :=
  let n := nat_of_ascii c in
  ((9 <=? n)%nat && (n <=? 13)%nat) || (n =? 32)%nat || (n =? 160)%nat.

(** [s.replace(/\s/g, '')]. *)
Fixpoint strip_ws (s : string) : string :=
  match s with
  | EmptyString => EmptyString
  | String c s' => if is_ws c then strip_ws s' else String c (strip_ws s')
  end.

(** [s.startsWith(p)]. *)
Fixpoint starts_with (p s : string) : bool :=
  match p, s with
  | EmptyString, _ => true
  | String c p', String d s' => Ascii.eqb c d && starts_with p' s'
  | String _ _, EmptyString => false
  end.

(** [s.includes(p)]. *)
Fixpoint includes (p s : string) : bool :=
  starts_with p s ||
  match s with
  | EmptyString => false
  | String _ s' => includes p s'
  end.

(** [s.replace(p, r)] with a string pattern: the first occurrence only. *)
Fixpoint replace_first (p r s : string) : string :=
  if starts_with p s then r ++ substring (String.length p) (String.length s) s
  else match s with
       | EmptyString => EmptyString
       | String c s' => String c (replace_first p r s')
       end.

(** [xs.join(sep)]. *)
Fixpoint join (sep : string) (xs : list string) : string :=
  match xs with
  | [] => ""
  | [x] => x
  | x :: xs' => x ++ sep ++ join sep xs'
  end.

(** [xs.map(f)] where [f] may throw. *)
Fixpoint mapM {A B} (f : A -> result B) (xs : list A) : result (list B) :=
  match xs with
  | [] => Ok []
  | x :: xs' => y <- f x ;; ys <- mapM f xs' ;; Ok (y :: ys)
  end.

End Js.
Import Js.

(** ** The SchemaEncoder *)

(** [schema.replace(/ipfsHash/g, 'bytes32')]: scans left to right and
    replaces every non-overlapping occurrence. *)
Fixpoint replace_ipfsHash (s : string) : string :=
  match s with
  | String "i" (String "p" (String "f" (String "s"
      (String "H" (String "a" (String "s" (String "h" rest))))))) =>
      "bytes32" ++ replace_ipfsHash rest
  | String c rest => String c (replace_ipfsHash rest)
  | EmptyString => EmptyString
  end.

(** An ethers [ParamType]: [name] is [null] when the parameter is unnamed,
    [components] is [null] unless the parameter is a tuple or array of
    tuples. *)
Inductive ParamType : Type :=
| mkParamType (name : option string) (type : string)
    (components : option (list ParamType)).

Definition pt_name (p : ParamType) : option string :=
  match p with mkParamType n _ _ => n end.
Definition pt_type (p : ParamType) : string :=
  match p with mkParamType _ t _ => t end.
Definition pt_components (p : ParamType) : option (list ParamType) :=
  match p with mkParamType _ _ c => c end.

Record SchemaItem : Type := mkSchemaItem {
  si_name : option string;
  si_type : string;
  si_value : JsValue
}.

Record SchemaItemWithSignature : Type := mkSchemaItemWithSignature {
  s_name : option string;
  s_type : string;
  s_signature : string;
  s_value : JsValue
}.

Record SchemaDecodedItem : Type := mkSchemaDecodedItem {
  d_name : option string;
  d_type : string;
  d_signature : string;
  d_value : SchemaItem
}.

Definition TUPLE_TYPE := "tuple".
Definition TUPLE_ARRAY_TYPE := "tuple[]".

(** Modelled from the spec: [ZERO_ADDRESS] of [./utils], the all-zero
    address constant. *)
Definition ZERO_ADDRESS := "0x0000000000000000000000000000000000000000".

(** [SchemaEncoder.getDefaultValueForTypeName]. *)
Definition getDefaultValueForTypeName (typeName : string) : JsValue :=
  if String.eqb typeName "bool" then JBool false
  else if includes "uint" typeName then JStr "0"
  else if String.eqb typeName "address" then JStr ZERO_ADDRESS
  else JStr "".

(** The body of the constructor's loop, for one [paramType]. *)
Definition schemaItemOfParam (paramType : ParamType) : SchemaItemWithSignature :=
  let name := pt_name paramType in
  let type := pt_type paramType in
  let components := pt_components paramType in
  let signature := if truthy_name name then type ++ " " ++ show_name name else type in
  let signatureSuffix := if truthy_name name then " " ++ show_name name else "" in
  let cs := match components with Some cs => cs | None => [] end in
  let componentsType := "(" ++ join "," (map pt_type cs) ++ ")" in
  let componentsFullType :=
    "(" ++ join ","
      (map (fun c => if truthy_name (pt_name c)
                     then pt_type c ++ " " ++ show_name (pt_name c)
                     else pt_type c) cs) ++ ")" in
  let '(type', signature', typeName) :=
    if String.eqb type TUPLE_TYPE then
      (componentsType, componentsFullType ++ signatureSuffix, type)
    else if String.eqb type TUPLE_ARRAY_TYPE then
      (componentsType ++ "[]", componentsFullType ++ "[]" ++ signatureSuffix, type)
    else if includes "[]" type then (type, signature, replace_first "[]" "" type)
    else (type, signature, type) in
  let singleValue := getDefaultValueForTypeName typeName in
  {| s_name := name;
     s_type := type';
     s_signature := signature';
     s_value := if includes "[]" type' then JArr [] else singleValue |}.

(** ** Positional numerals, shared by the base-x, base32 and ABI models *)
Module Digits.

(** Little-endian digits of [n] in base [B], with [fuel] steps at most. *)
Fixpoint digits_le (B : Z) (fuel : nat) (n : Z) : list Z :=
  match fuel with
  | O => []
  | S f => if n <=? 0 then [] else n mod B :: digits_le B f (n / B)
  end.

Fixpoint value_le (B : Z) (ds : list Z) : Z :=
  match ds with
  | [] => 0
  | d :: ds' => d + B * value_le B ds'
  end.

(** Enough steps for any base [B >= 2]. *)
Definition fuel_for (n : Z) : nat := Z.to_nat (Z.log2 n + 1).

(** Most significant digit first, no leading zero digit ([[]] for 0). *)
Definition digits_be (B n : Z) : list Z := rev (digits_le B (fuel_for n) n).
Definition value_be (B : Z) (ds : list Z) : Z := value_le B (rev ds).

End Digits.

(** ** The parts of ethers v5 [utils] that the encoder calls *)
Module EthersBytes.
Import Digits.

Definition Z_of_byte (b : byte) : Z := Z.of_N (Byte.to_N b).
Definition byte_of_Z (z : Z) : byte :=
  match Byte.of_N (Z.to_N (z mod 256)) with Some b => b | None => x00 end.

Definition hex_alphabet := "0123456789abcdef".

Definition hex_char (d : Z) : ascii :=
  match String.get (Z.to_nat d) hex_alphabet with Some c => c | None => "0"%char end.

(** The value of a hexadecimal digit of either case. *)
Definition hex_value (c : ascii) : option Z :=
  let n := Z.of_nat (nat_of_ascii c) in
  if (48 <=? n) && (n <=? 57) then Some (n - 48)
  else if (97 <=? n) && (n <=? 102) then Some (n - 87)
  else if (65 <=? n) && (n <=? 70) then Some (n - 55)
  else None.

Fixpoint hex_body (bs : list byte) : string :=
  match bs with
  | [] => ""
  | b :: bs' =>
      String (hex_char (Z_of_byte b / 16))
        (String (hex_char (Z_of_byte b mod 16)) (hex_body bs'))
  end.

(** [hexlify(bytes)]. *)
Definition hexlify (bs : list byte) : string := "0x" ++ hex_body bs.

Fixpoint all_hex (s : string) : bool :=
  match s with
  | EmptyString => true
  | String c s' => match hex_value c with Some _ => all_hex s' | None => false end
  end.

(** [isHexString(value)]: [/^0x[0-9A-Fa-f]*$/]. *)
Definition isHexString (v : JsValue) : bool :=
  match v with
  | JStr (String "0" (String "x" h)) => all_hex h
  | _ => false
  end.

Definition is_byte_number (v : JsValue) : bool :=
  match v with JNum n => (0 <=? n) && (n <? 256) | _ => false end.

(** [isBytes(value)]: an [Uint8Array], or an array of integers in [0, 256). *)
Definition isBytes (v : JsValue) : bool :=
  match v with
  | JBytes _ => true
  | JArr vs => forallb is_byte_number vs
  | _ => false
  end.

(** [isBytesLike(value)]. *)
Definition isBytesLike (v : JsValue) : bool :=
  match v with
  | JStr s => isHexString v && Nat.even (String.length s)
  | _ => isBytes v
  end.

(** Pairs of hexadecimal digits to bytes. *)
Fixpoint hex_pairs (s : string) : option (list byte) :=
  match s with
  | EmptyString => Some []
  | String a (String b s') =>
      match hex_value a, hex_value b, hex_pairs s' with
      | Some x, Some y, Some r => Some (byte_of_Z (16 * x + y) :: r)
      | _, _, _ => None
      end
  | String _ EmptyString => None
  end.

Definition MAX_SAFE_INTEGER := 9007199254740991.

(** [arrayify(value)] without options. *)
Definition arrayify (v : JsValue) : result (list byte) :=
  match v with
  | JNum n =>
      if (0 <=? n) && (n <=? MAX_SAFE_INTEGER) then
        Ok (if n =? 0 then [x00] else map byte_of_Z (digits_be 256 n))
      else Err "invalid arrayify value"
  | JBig n =>
      if 0 <=? n then Ok (if n =? 0 then [x00] else map byte_of_Z (digits_be 256 n))
      else Err "invalid arrayify value"
  | JStr (String "0" (String "x" h)) =>
      if all_hex h then
        match hex_pairs h with
        | Some bs => Ok bs
        | None => Err "hex data is odd-length"
        end
      else Err "invalid arrayify value"
  | JBytes bs => Ok bs
  | JArr vs =>
      if forallb is_byte_number vs
      then Ok (map (fun x => match x with JNum n => byte_of_Z n | _ => x00 end) vs)
      else Err "invalid arrayify value"
  | _ => Err "invalid arrayify value"
  end.

(** [toUtf8Bytes(str)]: the strings of this development hold the code points
    0 to 255, which UTF-8 writes in one or two bytes. *)
Definition utf8_of_char (c : ascii) : list byte :=
  let n := Z.of_nat (nat_of_ascii c) in
  if n <? 128 then [byte_of_Z n]
  else [byte_of_Z (Z.lor 192 (Z.shiftr n 6)); byte_of_Z (Z.lor 128 (Z.land n 63))].

Fixpoint toUtf8Bytes (s : string) : list byte :=
  match s with
  | EmptyString => []
  | String c s' => utf8_of_char c ++ toUtf8Bytes s'
  end.

Definition HashZero : list byte := repeat x00 32.

(** [formatBytes32String(text)]. *)
Definition formatBytes32String (text : string) : result string :=
  let bytes := toUtf8Bytes text in
  if 31 <? Z.of_nat (length bytes)
  then Err "bytes32 string must be less than 32 bytes"
  else Ok (hexlify (firstn 32 (bytes ++ HashZero))).

End EthersBytes.
Import EthersBytes.

(** ** The parts of multiformats (v9) that the encoder calls *)
Module Multiformats.
Import Digits.

Fixpoint char_index (c : ascii) (alphabet : string) : option Z :=
  match alphabet with
  | EmptyString => None
  | String a rest =>
      if Ascii.eqb a c then Some 0
      else match char_index c rest with Some i => Some (i + 1) | None => None end
  end.

Definition alphabet_char (alphabet : string) (d : Z) : ascii :=
  match String.get (Z.to_nat d) alphabet with Some c => c | None => " "%char end.

Definition BASE58_ALPHABET :=
  "123456789ABCDEFGHJKLMNPQRSTUVWXYZabcdefghijkmnopqrstuvwxyz".

Fixpoint count_leading_zero_bytes (bs : list byte) : nat :=
  match bs with
  | x00 :: bs' => S (count_leading_zero_bytes bs')
  | _ => O
  end.

Fixpoint count_leading_ones (s : string) : nat :=
  match s with
  | String "1" s' => S (count_leading_ones s')
  | _ => O
  end.

Fixpoint chars_digits (alphabet : string) (s : string) : option (list Z) :=
  match s with
  | EmptyString => Some []
  | String c s' =>
      match char_index c alphabet, chars_digits alphabet s' with
      | Some d, Some ds => Some (d :: ds)
      | _, _ => None
      end
  end.

(** The base-x codec over the bitcoin alphabet (base58btc without its
    multibase prefix): leading zero bytes become leading ['1's, the rest is the
    big-endian number written in base 58 without leading zero digit. *)
Definition base58_encode (bs : list byte) : string :=
  let zeroes := count_leading_zero_bytes bs in
  let n := value_be 256 (map Z_of_byte (skipn zeroes bs)) in
  string_of_list_ascii
    (repeat "1"%char zeroes ++ map (alphabet_char BASE58_ALPHABET) (digits_be 58 n))%list.

Definition base58_decode (s : string) : result (list byte) :=
  let zeroes := count_leading_ones s in
  match chars_digits BASE58_ALPHABET (substring zeroes (String.length s) s) with
  | Some ds => Ok (repeat x00 zeroes ++ map byte_of_Z (digits_be 256 (value_be 58 ds)))%list
  | None => Err "Non-base58btc character"
  end.

(** The multibase decoder of [base58btc] (prefix ['z']). *)
Definition base58btc_decode (s : string) : result (list byte) :=
  match s with
  | String "z" rest => base58_decode rest
  | _ => Err "Unable to decode multibase string"
  end.

Definition BASE32_ALPHABET := "abcdefghijklmnopqrstuvwxyz234567".

(** The RFC 4648 decoder (5 bits per character), state [(bits, buffer)]. *)
Fixpoint base32_bits (s : string) (bits buffer : Z) : result (list byte * Z * Z) :=
  match s with
  | EmptyString => Ok ([], bits, buffer)
  | String c s' =>
      match char_index c BASE32_ALPHABET with
      | None => Err "Non-base32 character"
      | Some v =>
          let buffer' := Z.lor (Z.shiftl buffer 5) v in
          let bits' := bits + 5 in
          if 8 <=? bits' then
            r <- base32_bits s' (bits' - 8) buffer' ;;
            let '(out, b, buf) := r in
            Ok (byte_of_Z (Z.land 255 (Z.shiftr buffer' (bits' - 8))) :: out, b, buf)
          else base32_bits s' bits' buffer'
      end
  end.

Fixpoint strip_padding (s : string) : string :=
  match s with
  | EmptyString => EmptyString
  | String "=" rest => if String.eqb (strip_padding rest) "" then "" else String "=" (strip_padding rest)
  | String c rest => String c (strip_padding rest)
  end.

Definition base32_decode (s : string) : result (list byte) :=
  match s with
  | String "b" rest =>
      r <- base32_bits (strip_padding rest) 0 0 ;;
      let '(out, bits, buffer) := r in
      if (5 <=? bits) || negb (Z.land 255 (Z.shiftl buffer (8 - bits)) =? 0)
      then Err "Unexpected end of data" else Ok out
  | _ => Err "Unable to decode multibase string"
  end.

(** [varint.decode]: the value and the number of bytes read. *)
Fixpoint varint_read (bs : list byte) (shift : Z) (fuel : nat) : result (Z * nat) :=
  match fuel, bs with
  | S f, b :: bs' =>
      if 49 <? shift then Err "Could not decode varint" else
      let v := Z_of_byte b in
      let res := Z.land v 127 * 2 ^ shift in
      if 128 <=? v then
        r <- varint_read bs' (shift + 7) f ;;
        let '(rest, l) := r in Ok (res + rest, S l)
      else Ok (res, 1%nat)
  | _, _ => Err "Could not decode varint"
  end.

Definition varint_decode (bs : list byte) : result (Z * nat) :=
  varint_read bs 0 (length bs).

Record MultihashDigest : Type := mkDigest {
  mh_code : Z;
  mh_size : Z;
  mh_digest : list byte;
  mh_bytes : list byte
}.

Record CID : Type := mkCID {
  cid_version : Z;
  cid_code : Z;
  cid_multihash : MultihashDigest;
  cid_bytes : list byte
}.

Definition DAG_PB_CODE := 112.

(** [CID.createV0(digest)]. *)
Definition createV0 (d : MultihashDigest) : CID :=
  mkCID 0 DAG_PB_CODE d (mh_bytes d).

Fixpoint varint_encode_fuel (fuel : nat) (n : Z) : list byte :=
  match fuel with
  | O => []
  | S f => if n <? 128 then [byte_of_Z n]
           else byte_of_Z (Z.lor 128 (Z.land n 127)) :: varint_encode_fuel f (Z.shiftr n 7)
  end.

Definition varint_encode (n : Z) : list byte := varint_encode_fuel 10 n.

(** [CID.createV1(code, digest)]. *)
Definition createV1 (code : Z) (d : MultihashDigest) : CID :=
  mkCID 1 code d (varint_encode 1 ++ varint_encode code ++ mh_bytes d)%list.

Definition sub (bs : list byte) (start stop : nat) : list byte :=
  firstn (stop - start) (skipn start bs).

(** [CID.inspectBytes] and [CID.decodeFirst]. *)
Definition decodeFirst (bs : list byte) : result (CID * list byte) :=
  v <- varint_decode bs ;;
  let '(version0, l0) := v in
  cv <- (if version0 =? 18 then Ok (0, DAG_PB_CODE, O)
         else if version0 =? 1 then
           c <- varint_decode (skipn l0 bs) ;;
           let '(codec, l1) := c in Ok (1, codec, (l0 + l1)%nat)
         else Ok (version0, DAG_PB_CODE, l0)) ;;
  let '(version, codec, offset) := cv in
  if negb ((version =? 0) || (version =? 1)) then Err "Invalid CID version" else
  let prefixSize := offset in
  m <- varint_decode (skipn offset bs) ;;
  let '(multihashCode, l2) := m in
  d <- varint_decode (skipn (offset + l2) bs) ;;
  let '(digestSize, l3) := d in
  let offset' := (offset + l2 + l3)%nat in
  let size := (offset' + Z.to_nat digestSize)%nat in
  let multihashSize := (size - prefixSize)%nat in
  let multihashBytes := sub bs prefixSize (prefixSize + multihashSize) in
  if negb (Nat.eqb (length multihashBytes) multihashSize) then Err "Incorrect length" else
  let digestBytes := skipn (multihashSize - Z.to_nat digestSize) multihashBytes in
  let digest := mkDigest multihashCode digestSize digestBytes multihashBytes in
  let cid := if version =? 0 then createV0 digest else createV1 codec digest in
  Ok (cid, skipn size bs).

(** [CID.decode(bytes)]. *)
Definition decode (bs : list byte) : result CID :=
  r <- decodeFirst bs ;;
  let '(cid, remainder) := r in
  match remainder with [] => Ok cid | _ => Err "Incorrect length" end.

(** [CID.parse(source)] without a base: a leading ['Q'] is a base58btc
    version-0 string, ['z'] base58btc and ['b'] base32 multibase strings. *)
Definition parse (source : string) : result CID :=
  bytes <- match source with
           | String "Q" _ => base58btc_decode ("z" ++ source)
           | String "z" _ => base58btc_decode source
           | String "b" _ => base32_decode source
           | _ => Err "To parse non base32 or base58btc encoded CID multibase decoder must be provided"
           end ;;
  decode bytes.

(** [cid.toString()] of a CID built by [createV0] (empty string cache). *)
Definition toStringV0 (cid : CID) : string := base58_encode (cid_bytes cid).

End Multiformats.

(** ** ethers v5 fragment parsing ([FunctionFragment.from], [ParamType.from]) *)
Module EthersFragments.

(** [verifyType]: [uint] and [int] (possibly followed by a non-size
    character) stand for [uint256] and [int256]. *)
Definition verifyType (type : string) : string :=
  match type with
  | String "u" (String "i" (String "n" (String "t" rest))) =>
      match rest with
      | String c _ => if ("1" <=? c)%char && (c <=? "9")%char then type else "uint256" ++ rest
      | EmptyString => "uint256"
      end
  | String "i" (String "n" (String "t" rest)) =>
      match rest with
      | String c _ => if ("1" <=? c)%char && (c <=? "9")%char then type else "int256" ++ rest
      | EmptyString => "int256"
      end
  | _ => type
  end.

(** Property names that a plain object literal inherits from
    [Object.prototype]: looking them up in [ModifiersBytes] or [ModifiersNest]
    yields a truthy value. *)
Definition object_prototype_keys : list string :=
  ["constructor"; "__defineGetter__"; "__defineSetter__"; "hasOwnProperty";
   "__lookupGetter__"; "__lookupSetter__"; "isPrototypeOf";
   "propertyIsEnumerable"; "toString"; "valueOf"; "__proto__"; "toLocaleString"].

Definition ModifiersBytes (name : string) : bool :=
  existsb (String.eqb name) (["calldata"; "memory"; "storage"] ++ object_prototype_keys)%list.
Definition ModifiersNest (name : string) : bool :=
  existsb (String.eqb name) (["calldata"; "memory"] ++ object_prototype_keys)%list.

(** [checkModifier(type, name)]. *)
Definition checkModifier (type name : string) : result bool :=
  let hit :=
    if String.eqb type "bytes" || String.eqb type "string" then ModifiersBytes name
    else if String.eqb type "address" then String.eqb name "payable"
    else if includes "[" type || String.eqb type "tuple" then ModifiersNest name
    else false in
  if hit then Ok true
  else if ModifiersBytes name || String.eqb name "payable" then Err "invalid modifier"
  else Ok false.

(** A node of [parseParamType]'s tree with its parse state; an absent flag
    of [node.state] is [false]. *)
Record Node : Type := mkNode {
  n_type : string;
  n_name : string;
  n_components : option (list ParamType);
  allowType : bool;
  allowName : bool;
  allowParams : bool;
  allowArray : bool;
  readArray : bool
}.

Definition newNode : Node := mkNode "" "" None true false false false false.

Definition set_type (n : Node) (t : string) : Node :=
  mkNode t (n_name n) (n_components n) (allowType n) (allowName n) (allowParams n) (allowArray n) (readArray n).
Definition set_name (n : Node) (s : string) : Node :=
  mkNode (n_type n) s (n_components n) (allowType n) (allowName n) (allowParams n) (allowArray n) (readArray n).
Definition set_components (n : Node) (c : option (list ParamType)) : Node :=
  mkNode (n_type n) (n_name n) c (allowType n) (allowName n) (allowParams n) (allowArray n) (readArray n).
Definition set_state (n : Node) (aT aN aP aA rA : bool) : Node :=
  mkNode (n_type n) (n_name n) (n_components n) aT aN aP aA rA.

(** [ParamType.fromObject] of a finished node. *)
Definition finish (n : Node) : ParamType :=
  mkParamType (if String.eqb (n_name n) "" then None else Some (n_name n))
    (verifyType (n_type n)) (n_components n).

(** What [")"] and [","] do to the node they close. *)
Definition close_node (n : Node) : result Node :=
  if String.eqb (n_name n) "indexed" then Err "unexpected character" else
  m <- checkModifier (n_type n) (n_name n) ;;
  let n := if m then set_name n "" else n in
  Ok (set_type n (verifyType (n_type n))).

(** One character of [parseParamType]; [stack] holds the open ancestors,
    innermost first. *)
Definition parse_char (c : ascii) (node : Node) (stack : list Node)
  : result (Node * list Node) :=
  match c with
  | "("%char =>
      nodeT <- (if allowType node && String.eqb (n_type node) "" then Ok (set_type node "tuple")
                else if negb (allowParams node) then Err "unexpected character"
                else Ok node) ;;
      let nodeT := set_state nodeT false (allowName nodeT) (allowParams nodeT)
                     (allowArray nodeT) (readArray nodeT) in
      let nodeT := set_type nodeT (verifyType (n_type nodeT)) in
      Ok (newNode, set_components nodeT (Some []) :: stack)
  | ")"%char =>
      child <- close_node node ;;
      match stack with
      | [] => Err "unexpected character"
      | parent :: stack' =>
          let cs := match n_components parent with Some cs => cs | None => [] end in
          let parent := set_components parent (Some (cs ++ [finish child])%list) in
          Ok (set_state parent (allowType parent) true false true (readArray parent), stack')
      end
  | ","%char =>
      child <- close_node node ;;
      match stack with
      | [] => Err "Cannot read properties of undefined (reading 'components')"
      | parent :: stack' =>
          let cs := match n_components parent with Some cs => cs | None => [] end in
          Ok (newNode, set_components parent (Some (cs ++ [finish child])%list) :: stack')
      end
  | " "%char =>
      let node :=
        if allowType node && negb (String.eqb (n_type node) "") then
          set_state (set_type node (verifyType (n_type node)))
            false true true (allowArray node) (readArray node)
        else node in
      if allowName node && negb (String.eqb (n_name node) "") then
        if String.eqb (n_name node) "indexed" then Err "unexpected character" else
        m <- checkModifier (n_type node) (n_name node) ;;
        if m then Ok (set_name node "", stack)
        else Ok (set_state node (allowType node) false (allowParams node)
                   (allowArray node) (readArray node), stack)
      else Ok (node, stack)
  | "["%char =>
      if negb (allowArray node) then Err "unexpected character" else
      let node := set_type node (n_type node ++ "[") in
      Ok (set_state node (allowType node) false (allowParams node) false true, stack)
  | "]"%char =>
      if negb (readArray node) then Err "unexpected character" else
      let node := set_type node (n_type node ++ "]") in
      Ok (set_state node (allowType node) true (allowParams node) true false, stack)
  | _ =>
      if allowType node then
        let node := set_type node (n_type node ++ String c "") in
        Ok (set_state node true (allowName node) true true (readArray node), stack)
      else if allowName node then
        let node := set_name node (n_name node ++ String c "") in
        Ok (set_state node (allowType node) true (allowParams node) false (readArray node), stack)
      else if readArray node then Ok (set_type node (n_type node ++ String c ""), stack)
      else Err "unexpected character"
  end.

Fixpoint parse_chars (s : string) (node : Node) (stack : list Node)
  : result (Node * list Node) :=
  match s with
  | EmptyString => Ok (node, stack)
  | String c s' =>
      r <- parse_char c node stack ;;
      let '(node', stack') := r in parse_chars s' node' stack'
  end.

(** [param.replace(/\s/g, " ")]. *)
Fixpoint ws_to_space (s : string) : string :=
  match s with
  | EmptyString => EmptyString
  | String c s' => String (if is_ws c then " "%char else c) (ws_to_space s')
  end.

(** [ParamType.fromString(param)] ([parseParamType] then
    [ParamType.fromObject]), indexed parameters not allowed. *)
Definition ParamType_fromString (param : string) : result ParamType :=
  r <- parse_chars (ws_to_space param) newNode [] ;;
  let '(node, stack) := r in
  match stack with
  | _ :: _ => Err "unexpected eof"
  | [] =>
      if String.eqb (n_name node) "indexed" then Err "unexpected character" else
      m <- checkModifier (n_type node) (n_name node) ;;
      let node := if m then set_name node "" else node in
      Ok (finish (set_type node (verifyType (n_type node))))
  end.

(** [value.trim()]. *)
Fixpoint trim_start (s : string) : string :=
  match s with
  | String c s' => if is_ws c then trim_start s' else s
  | EmptyString => EmptyString
  end.
Definition trim (s : string) : string :=
  string_of_list_ascii (rev (list_ascii_of_string (trim_start
    (string_of_list_ascii (rev (list_ascii_of_string (trim_start s))))))).

(** [parseParams(value, false)]: splits at the commas outside parentheses. *)
Fixpoint split_params (s : string) (depth : Z) (accum : string)
  : result (list string) :=
  match s with
  | EmptyString => Ok (if String.eqb accum "" then [] else [accum])
  | String c s' =>
      if Ascii.eqb c ","%char && (depth =? 0) then
        rest <- split_params s' depth "" ;; Ok (accum :: rest)
      else
        let accum := accum ++ String c "" in
        let depth := if Ascii.eqb c "("%char then depth + 1
                     else if Ascii.eqb c ")"%char then depth - 1 else depth in
        if depth =? -1 then Err "unbalanced parenthesis"
        else split_params s' depth accum
  end.

Definition parseParams (value : string) : result (list ParamType) :=
  pieces <- split_params (trim value) 0 "" ;;
  mapM ParamType_fromString pieces.

(** [value.split(sep)] for a non-empty separator. *)
Fixpoint split_on_fuel (fuel : nat) (sep s : string) : list string :=
  match fuel with
  | O => [s]
  | S f =>
      match String.index 0 sep s with
      | Some i =>
          substring 0 i s
            :: split_on_fuel f sep (substring (i + String.length sep) (String.length s) s)
      | None => [s]
      end
  end.
Definition split_on (sep s : string) : list string :=
  split_on_fuel (S (String.length s)) sep s.

Definition is_paren (c : ascii) : bool := Ascii.eqb c "(" || Ascii.eqb c ")".

Fixpoint first_paren (s : string) (i : nat) : option (ascii * nat) :=
  match s with
  | EmptyString => None
  | String c s' => if is_paren c then Some (c, i) else first_paren s' (S i)
  end.

Fixpoint last_paren (s : string) (i : nat) (acc : option (ascii * nat)) : option (ascii * nat) :=
  match s with
  | EmptyString => acc
  | String c s' => last_paren s' (S i) (if is_paren c then Some (c, i) else acc)
  end.

(** ['.'] does not match line terminators. *)
Fixpoint no_line_terminator (s : string) : bool :=
  match s with
  | EmptyString => true
  | String c s' =>
      negb ((nat_of_ascii c =? 10)%nat || (nat_of_ascii c =? 13)%nat) && no_line_terminator s'
  end.

(** The match of [regexParen] in ethers: a prefix without parentheses, an
    opening parenthesis, any text without line terminators, a closing
    parenthesis and a suffix without parentheses; the three groups. *)
Definition regexParen (s : string) : option (string * string * string) :=
  match first_paren s 0, last_paren s 0 None with
  | Some (a, i), Some (b, j) =>
      if Ascii.eqb a "(" && Ascii.eqb b ")" && (i <? j)%nat then
        let mid := substring (S i) (j - S i) s in
        if no_line_terminator mid
        then Some (substring 0 i s, mid, substring (S j) (String.length s) s)
        else None
      else None
  | _, _ => None
  end.

(** [/^[a-zA-Z$_][a-zA-Z0-9$_]*$/]. *)
Definition ident_char (first : bool) (c : ascii) : bool :=
  let n := nat_of_ascii c in
  ((65 <=? n) && (n <=? 90))%nat || ((97 <=? n) && (n <=? 122))%nat
  || (n =? 36)%nat || (n =? 95)%nat
  || (negb first && (48 <=? n) && (n <=? 57))%nat.
Definition verifyIdentifier (s : string) : result string :=
  match s with
  | EmptyString => Err "invalid identifier"
  | String c s' =>
      if ident_char true c && forallb (ident_char false) (list_ascii_of_string s')
      then Ok s else Err "invalid identifier"
  end.

(** [parseModifiers] then [verifyState]: the flags [(constant, payable,
    stateMutability)] the modifiers set, and whether they agree. *)
Definition apply_modifier (st : bool * bool * string) (m : string) : bool * bool * string :=
  let '(constant, payable, mut) := st in
  let m := trim m in
  if String.eqb m "constant" then (true, payable, mut)
  else if String.eqb m "payable" then (constant, true, "payable")
  else if String.eqb m "nonpayable" then (constant, false, "nonpayable")
  else if String.eqb m "pure" then (true, payable, "pure")
  else if String.eqb m "view" then (true, payable, "view")
  else (constant, payable, mut).

Definition check_modifiers (value : string) : result unit :=
  let '(constant, payable, mut) :=
    fold_left apply_modifier (split_on " " value) (false, false, "nonpayable") in
  if negb (Bool.eqb constant (String.eqb mut "view" || String.eqb mut "pure"))
  then Err "cannot have constant function with mutability"
  else if negb (Bool.eqb payable (String.eqb mut "payable"))
  then Err "cannot have payable function with mutability"
  else Ok tt.

(** [FunctionFragment.from(value).inputs] for a string [value]. *)
Definition FunctionFragment_from (value : string) : result (list ParamType) :=
  let comps := split_on " returns " value in
  if (2 <? length comps)%nat then Err "invalid function string" else
  match regexParen (hd "" comps) with
  | None => Err "invalid function signature"
  | Some (g1, g2, g3) =>
      let fname := trim g1 in
      _ <- (if String.eqb fname "" then Ok "" else verifyIdentifier fname) ;;
      inputs <- parseParams g2 ;;
      _ <- check_modifiers (trim g3) ;;
      _ <- match comps with
           | [_; ret] =>
               match regexParen ret with
               | None => Err "Cannot read properties of null"
               | Some (r1, r2, r3) =>
                   if negb (String.eqb (trim r1) "") || negb (String.eqb (trim r3) "")
                   then Err "unexpected tokens"
                   else parseParams r2
               end
           | _ => Ok []
           end ;;
      _ <- verifyIdentifier fname ;;
      Ok inputs
  end.

End EthersFragments.

(** ** ethers v5 [defaultAbiCoder] *)
Module EthersAbi.
Import Digits EthersFragments.

Inductive Coder : Type :=
| CAddress
| CBool
| CString
| CBytes
| CNull
| CNumber (size : Z) (signed : bool)
| CFixedBytes (size : Z)
| CArray (coder : Coder) (length : Z)
| CTuple (coders : list Coder).

Fixpoint dynamic (c : Coder) : bool :=
  match c with
  | CString | CBytes => true
  | CArray c' len => (len =? -1) || dynamic c'
  | CTuple cs => existsb dynamic cs
  | _ => false
  end.

Definition is_digit (c : ascii) : bool := ("0" <=? c)%char && (c <=? "9")%char.

Definition digits_value (s : string) : Z :=
  value_be 10 (map (fun c => Z.of_nat (nat_of_ascii c) - 48) (list_ascii_of_string s)).

Fixpoint take_digits (xs : list ascii) : list ascii :=
  match xs with
  | c :: xs' => if is_digit c then c :: take_digits xs' else []
  | [] => []
  end.

(** The array pattern of the [ParamType] constructor: a type ending in an
    opening bracket, decimal digits and a closing bracket; the element type
    and the digits. *)
Definition array_match (type : string) : option (string * string) :=
  match rev (list_ascii_of_string type) with
  | "]"%char :: rinner =>
      let rdigits := take_digits rinner in
      match skipn (length rdigits) rinner with
      | "["%char :: rprefix =>
          Some (string_of_list_ascii (rev rprefix), string_of_list_ascii (rev rdigits))
      | _ => None
      end
  | _ => None
  end.

(** The size of a [ParamType]'s description, which bounds [getCoder]'s
    recursion. *)
Fixpoint pt_weight (p : ParamType) : nat :=
  match p with
  | mkParamType _ t cs =>
      S (String.length t + match cs with
                           | Some cs => list_sum (map pt_weight cs)
                           | None => O
                           end)
  end.

(** [AbiCoder._getCoder(param)], with [param.baseType] computed as the
    [ParamType] constructor does. *)
Fixpoint getCoder_fuel (fuel : nat) (p : ParamType) : result Coder :=
  match fuel with
  | O => Err "invalid type"
  | S f =>
      let type := pt_type p in
      match array_match type with
      | Some (elem, len) =>
          c <- getCoder_fuel f (mkParamType None (verifyType elem) (pt_components p)) ;;
          Ok (CArray c (if String.eqb len "" then -1 else digits_value len))
      | None =>
          match pt_components p with
          | Some cs => coders <- mapM (getCoder_fuel f) cs ;; Ok (CTuple coders)
          | None =>
          if String.eqb type "address" then Ok CAddress
          else if String.eqb type "bool" then Ok CBool
          else if String.eqb type "string" then Ok CString
          else if String.eqb type "bytes" then Ok CBytes
          else if String.eqb type "tuple" then Ok (CTuple [])
          else if String.eqb type "" then Ok CNull
          else
            let number size_text signed :=
              if forallb is_digit (list_ascii_of_string size_text) then
                let size := if String.eqb size_text "" then 256 else digits_value size_text in
                if (size =? 0) || (256 <? size) || negb (size mod 8 =? 0)
                then Err "invalid bit length" else Ok (CNumber (size / 8) signed)
              else Err "invalid type" in
            match type with
            | String "u" (String "i" (String "n" (String "t" rest))) => number rest false
            | String "i" (String "n" (String "t" rest)) => number rest true
            | String "b" (String "y" (String "t" (String "e" (String "s" rest)))) =>
                if forallb is_digit (list_ascii_of_string rest) then
                  let size := digits_value rest in
                  if (size =? 0) || (32 <? size) then Err "invalid bytes length"
                  else Ok (CFixedBytes size)
                else Err "invalid type"
            | _ => Err "invalid type"
            end
          end
      end
  end.

Definition getCoder (p : ParamType) : result Coder := getCoder_fuel (pt_weight p) p.

(** [defaultAbiCoder.getDefaultValue(types)]: builds every coder, which throws
    on an invalid type; building the default values does not throw. *)
Definition getDefaultValue (ps : list ParamType) : result unit :=
  _ <- mapM getCoder ps ;; Ok tt.

(** Big-endian, [width] bytes. *)
Fixpoint fixed_be (width : nat) (n : Z) : list byte :=
  match width with
  | O => []
  | S w => (fixed_be w (n / 256) ++ [byte_of_Z n])%list
  end.

Definition bytes_value (bs : list byte) : Z := value_be 256 (map Z_of_byte bs).

(** [Writer.writeValue] of a non-negative value. *)
Definition writeValue (v : Z) : result (list byte) :=
  if v <? 2 ^ 256 then Ok (fixed_be 32 v) else Err "value out-of-bounds".

(** [Writer.writeBytes]: right-padded to a multiple of 32 bytes. *)
Definition pad_right (bs : list byte) : list byte :=
  (bs ++ repeat x00 ((32 - length bs mod 32) mod 32))%list.

Definition hex_digits_value (s : string) : option Z :=
  match s with
  | EmptyString => Some 0
  | _ => match hex_pairs (if Nat.even (String.length s) then s else String "0" s) with
         | Some bs => Some (bytes_value bs)
         | None => None
         end
  end.

(** [BigNumber.from(value)]. *)
Definition BigNumber_from (v : JsValue) : result Z :=
  match v with
  | JNum n => if Z.abs n <? MAX_SAFE_INTEGER then Ok n else Err "overflow"
  | JBig n => Ok n
  | JStr s =>
      let '(neg, body) := match s with
                          | String "-" b => (true, b)
                          | _ => (false, s)
                          end in
      let sign x := if neg then - x else x in
      match body with
      | String "0" (String "x" h) =>
          if negb (String.eqb h "") && all_hex h then
            match hex_digits_value h with Some x => Ok (sign x) | None => Err "invalid BigNumber string" end
          else Err "invalid BigNumber string"
      | _ =>
          if negb (String.eqb body "") && forallb is_digit (list_ascii_of_string body)
          then Ok (sign (digits_value body)) else Err "invalid BigNumber string"
      end
  | JBytes bs => Ok (bytes_value bs)
  | _ => if isBytes v then
           match arrayify v with Ok bs => Ok (bytes_value bs) | Err e => Err e end
         else Err "invalid BigNumber value"
  end.

Definition truthy (v : JsValue) : bool :=
  match v with
  | JUndefined | JNull => false
  | JBool b => b
  | JNum n => negb (n =? 0)
  | JStr s => negb (String.eqb s "")
  | _ => true
  end.

(** [pack(writer, coders, values)] for array values: the heads, with the
    offsets of the dynamic parts, then the dynamic parts. *)
Definition pack (encs : list (bool * (JsValue -> result (list byte))))
  (v : JsValue) : result (list byte) :=
  match v with
  | JArr vs =>
      if negb (Nat.eqb (length encs) (length vs)) then Err "types/value length mismatch" else
      parts <- (mapM (fun (ev : (bool * (JsValue -> result (list byte))) * JsValue) =>
                       let '((dyn, enc), x) := ev in
                               b <- enc x ;; Ok (dyn, b)) (combine encs vs)
        : result (list (bool * list byte))) ;;
      let static_len :=
        list_sum (map (fun (p : bool * list byte) => if fst p then 32%nat else length (snd p)) parts) in
      let '(heads, tails, _) :=
        fold_left (fun (acc : list byte * list byte * nat) (p : bool * list byte) =>
                     let '(hs, ts, off) := acc in
                     if fst p
                     then ((hs ++ fixed_be 32 (Z.of_nat (static_len + off)))%list,
                           (ts ++ snd p)%list, (off + length (snd p))%nat)
                     else ((hs ++ snd p)%list, ts, off))
                  parts ([], [], O) in
      Ok (heads ++ tails)%list
  | JObj _ => Err "encoding a tuple from an object is not modelled"
  | _ => Err "invalid tuple value"
  end.

(** [coder.encode(writer, value)]; address values are not modelled. *)
Fixpoint encode (c : Coder) (v : JsValue) : result (list byte) :=
  match c with
  | CNumber size signed =>
      n <- BigNumber_from v ;;
      if signed then
        let bound := 2 ^ (8 * size - 1) - 1 in
        if (bound <? n) || (n <? - (bound + 1)) then Err "value out-of-bounds"
        else writeValue (n mod 2 ^ 256)
      else if (n <? 0) || (2 ^ (8 * size) - 1 <? n) then Err "value out-of-bounds"
      else writeValue n
  | CBool => writeValue (if truthy v then 1 else 0)
  | CFixedBytes size =>
      data <- arrayify v ;;
      if negb (Z.of_nat (length data) =? size) then Err "incorrect data length"
      else Ok (pad_right data)
  | CBytes =>
      data <- arrayify v ;;
      len <- writeValue (Z.of_nat (length data)) ;; Ok (len ++ pad_right data)%list
  | CString =>
      match v with
      | JStr s => let data := toUtf8Bytes s in
                  len <- writeValue (Z.of_nat (length data)) ;; Ok (len ++ pad_right data)%list
      | _ => Err "invalid string value"
      end
  | CAddress => Err "address values are not modelled"
  | CNull => match v with JNull | JUndefined => Ok [] | _ => Err "not null" end
  | CArray c' len =>
      match v with
      | JArr vs =>
          let count := if len =? -1 then Z.of_nat (length vs) else len in
          if Z.of_nat (length vs) <? count then Err "missing argument: coder array"
          else if count <? Z.of_nat (length vs) then Err "too many arguments: coder array"
          else
            body <- pack (repeat (dynamic c', encode c') (length vs)) v ;;
            if len =? -1 then (l <- writeValue count ;; Ok (l ++ body)%list) else Ok body
      | _ => Err "expected array value"
      end
  | CTuple cs => pack (map (fun c' => (dynamic c', encode c')) cs) v
  end.

(** [Reader.readBytes(count)] on the reader data [data] at [pos]: the bytes and
    the position after the word-aligned read. *)
Definition readBytes (data : list byte) (pos : nat) (count : Z) : result (list byte * nat) :=
  let aligned := Z.to_nat (((count + 31) / 32) * 32) in
  if (length data <? pos + aligned)%nat then Err "data out-of-bounds"
  else Ok (firstn (Z.to_nat count) (skipn pos data), (pos + aligned)%nat).

Definition readValue (data : list byte) (pos : nat) : result (Z * nat) :=
  r <- readBytes data pos 32 ;; let '(bs, pos') := r in Ok (bytes_value bs, pos').

(** [BigNumber.toNumber()]. *)
Definition toNumber (z : Z) : result Z :=
  if z <? 2 ^ 53 then Ok z else Err "overflow".

(** [toUtf8String(bytes)] for the code points this development's strings
    hold (one- and two-byte sequences up to U+00FF). *)
Fixpoint utf8_decode_fuel (fuel : nat) (bs : list byte) : result string :=
  match fuel, bs with
  | _, [] => Ok EmptyString
  | O, _ => Err "invalid utf8 byte sequence"
  | S f, b :: bs' =>
      let x := Z_of_byte b in
      if x <? 128 then s <- utf8_decode_fuel f bs' ;; Ok (String (ascii_of_nat (Z.to_nat x)) s)
      else match bs' with
           | b2 :: bs'' =>
               let y := Z_of_byte b2 in
               if ((x =? 194) || (x =? 195)) && (128 <=? y) && (y <? 192) then
                 s <- utf8_decode_fuel f bs'' ;;
                 Ok (String (ascii_of_nat (Z.to_nat (64 * (x - 192) + (y - 128)))) s)
               else Err "code points above U+00FF are not modelled"
           | [] => Err "invalid utf8 byte sequence"
           end
  end.

(** [unpack(reader, coders)]: a dynamic part is read from the offset stored
    in its head, relative to where the tuple starts. Errors are raised at
    once (ethers defers some of them to the first access of the value). *)
Definition unpack (decs : list (bool * (list byte -> nat -> result (JsValue * nat))))
  (data : list byte) (pos : nat) : result (JsValue * nat) :=
  r <- fold_left
         (fun (acc : result (list JsValue * nat))
              (d : bool * (list byte -> nat -> result (JsValue * nat))) =>
            a <- acc ;;
            let '(vs, cur) := a in
            let '(dyn, dec) := d in
            if dyn then
              o <- readValue data cur ;;
              let '(offset, cur') := o in
              n <- toNumber offset ;;
              x <- dec (skipn (pos + Z.to_nat n) data) O ;;
              Ok ((vs ++ [fst x])%list, cur')
            else
              x <- dec data cur ;;
              Ok ((vs ++ [fst x])%list, snd x))
         decs (Ok ([], pos)) ;;
  let '(vs, cur) := r in Ok (JArr vs, cur).

(** [coder.decode(reader)]; address values are not modelled. Integers of at
    most 48 bits come back as numbers, wider ones as [BigNumber]s. *)
Fixpoint decode (c : Coder) (data : list byte) (pos : nat) : result (JsValue * nat) :=
  match c with
  | CNumber size signed =>
      r <- readValue data pos ;;
      let '(w, pos') := r in
      let bits := 8 * size in
      let v := w mod 2 ^ bits in
      let v := if signed && (2 ^ (bits - 1) <=? v) then v - 2 ^ bits else v in
      Ok (if bits <=? 48 then JNum v else JBig v, pos')
  | CBool => r <- readValue data pos ;; Ok (JBool (negb (fst r =? 0)), snd r)
  | CFixedBytes size =>
      r <- readBytes data pos size ;; Ok (JStr (hexlify (fst r)), snd r)
  | CBytes =>
      r <- readValue data pos ;;
      n <- toNumber (fst r) ;;
      b <- readBytes data (snd r) n ;; Ok (JStr (hexlify (fst b)), snd b)
  | CString =>
      r <- readValue data pos ;;
      n <- toNumber (fst r) ;;
      b <- readBytes data (snd r) n ;;
      s <- utf8_decode_fuel (length (fst b)) (fst b) ;; Ok (JStr s, snd b)
  | CAddress => Err "address values are not modelled"
  | CNull => Ok (JNull, pos)
  | CArray c' len =>
      cnt <- (if len =? -1 then
                r <- readValue data pos ;;
                n <- toNumber (fst r) ;;
                if Z.of_nat (length data) <? n * 32 then Err "insufficient data length"
                else Ok (n, snd r)
              else Ok (len, pos)) ;;
      let '(count, pos') := cnt in
      unpack (repeat (dynamic c', decode c') (Z.to_nat count)) data pos'
  | CTuple cs => unpack (map (fun c' => (dynamic c', decode c')) cs) data pos
  end.

Definition coderOf (type : string) : result Coder :=
  p <- ParamType_fromString type ;; getCoder p.

(** [defaultAbiCoder.encode(types, values)]. *)
Definition abi_encode (types : list string) (values : list JsValue) : result string :=
  if negb (Nat.eqb (length types) (length values)) then Err "types/values length mismatch" else
  coders <- mapM coderOf types ;;
  bytes <- encode (CTuple coders) (JArr values) ;;
  Ok (hexlify bytes).

(** [defaultAbiCoder.decode(types, data)]. *)
Definition abi_decode (types : list string) (data : string) : result (list JsValue) :=
  coders <- mapM coderOf types ;;
  bytes <- arrayify (JStr data) ;;
  r <- decode (CTuple coders) bytes O ;;
  match fst r with JArr vs => Ok vs | _ => Err "unexpected result" end.

End EthersAbi.

(** ** The class [SchemaEncoder]

    The members are stated for any fragment parser and any ABI coder: the
    section's variables stand for [FunctionFragment.from(..).inputs] and for
    [defaultAbiCoder]'s [getDefaultValue], [encode] and [decode]. The models of
    ethers above instantiate them. *)
Section SchemaEncoder.

Variable FunctionFragment_from : string -> result (list ParamType).
Variable getDefaultValue : list ParamType -> result unit.
Variable abi_encode : list string -> list JsValue -> result string.
Variable abi_decode : list string -> string -> result (list JsValue).

(** [new SchemaEncoder(schema)]: the resulting [this.schema]. *)
Definition SchemaEncoder_constructor (schema : string) : result (list SchemaItemWithSignature) :=
  let fixedSchema := replace_ipfsHash schema in
  inputs <- FunctionFragment_from ("func(" ++ fixedSchema ++ ")") ;;
  _ <- getDefaultValue inputs ;;
  Ok (map schemaItemOfParam inputs).

(** [this.signatures()]. *)
Definition signatures (schema : list SchemaItemWithSignature) : list string :=
  map s_signature schema.

(** [toUtf8Bytes(value)] of an arbitrary value: a value without [length]
    property converts to no bytes; a value with elements but no
    [charCodeAt] throws. *)
Definition toUtf8Bytes_js (v : JsValue) : result (list byte) :=
  match v with
  | JStr s => Ok (toUtf8Bytes s)
  | JNull | JUndefined => Err "Cannot read properties of null (reading 'length')"
  | JArr [] | JBytes [] => Ok []
  | JArr _ | JBytes _ => Err "str.charCodeAt is not a function"
  | _ => Ok []
  end.

Definition formatBytes32String_js (v : JsValue) : result JsValue :=
  bytes <- toUtf8Bytes_js v ;;
  if 31 <? Z.of_nat (length bytes)
  then Err "bytes32 string must be less than 32 bytes"
  else Ok (JStr (hexlify (firstn 32 (bytes ++ HashZero)))).

(** [SchemaEncoder.encodeBytes32Value]. *)
Definition encodeBytes32Value (value : JsValue) : result JsValue :=
  try_catch (_ <- abi_encode ["bytes32"] [value] ;; Ok value)
    (fun _ => formatBytes32String_js value).

(** [SchemaEncoder.decodeIpfsValue]; [CID.parse] of a value that is not a
    string is taken to throw. *)
Definition decodeIpfsValue (val : JsValue) : result JsValue :=
  if isBytesLike val then encodeBytes32Value val
  else
    try_catch
      (decodedHash <- match val with
                      | JStr s => Multiformats.parse s
                      | _ => Err "CID.parse of a non-string"
                      end ;;
       encoded <- abi_encode ["bytes32"]
                    [JBytes (Multiformats.mh_digest (Multiformats.cid_multihash decodedHash))] ;;
       Ok (JStr encoded))
      (fun _ => encodeBytes32Value val).

Definition eqb_name (a b : option string) : bool :=
  match a, b with
  | Some x, Some y => String.eqb x y
  | None, None => true
  | _, _ => false
  end.

(** The body of [encodeData]'s loop for one field: the checks, then the value
    pushed onto [data]. *)
Definition encodeItem (schemaItem : SchemaItemWithSignature) (param : SchemaItem)
  : result JsValue :=
  let sanitizedType := strip_ws (si_type param) in
  if negb (String.eqb sanitizedType (s_type schemaItem))
     && negb (String.eqb sanitizedType (s_signature schemaItem))
     && negb (String.eqb sanitizedType "ipfsHash" && String.eqb (s_type schemaItem) "bytes32")
  then Err ("Incompatible param type: " ++ sanitizedType)
  else if negb (eqb_name (si_name param) (s_name schemaItem))
  then Err ("Incompatible param name: " ++ show_name (si_name param))
  else
    let value := si_value param in
    if String.eqb (s_type schemaItem) "bytes32" && eqb_name (s_name schemaItem) (Some "ipfsHash")
    then decodeIpfsValue value
    else if String.eqb (s_type schemaItem) "bytes32" && String.eqb (typeof value) "string"
            && negb (isBytesLike value)
    then match value with
         | JStr s => r <- formatBytes32String s ;; Ok (JStr r)
         | _ => Ok value
         end
    else Ok value.

(** The loop of [encodeData] over [this.schema.entries()]. *)
Fixpoint encodeItems (schema : list SchemaItemWithSignature) (params : list SchemaItem)
  : result (list JsValue) :=
  match schema, params with
  | [], _ => Ok []
  | schemaItem :: schema', param :: params' =>
      v <- encodeItem schemaItem param ;;
      vs <- encodeItems schema' params' ;;
      Ok (v :: vs)
  | _ :: _, [] => Err "Cannot destructure 'params[index]' as it is undefined."
  end.

(** [SchemaEncoder.encodeData]. *)
Definition encodeData (schema : list SchemaItemWithSignature) (params : list SchemaItem)
  : result string :=
  if negb (Nat.eqb (length params) (length schema)) then Err "Invalid number or values" else
  data <- encodeItems schema params ;;
  abi_encode (signatures schema) data.

(** [value.length]: [None] when the property is undefined. *)
Definition js_length (v : JsValue) : result (option nat) :=
  match v with
  | JArr vs => Ok (Some (length vs))
  | JStr s => Ok (Some (String.length s))
  | JBytes bs => Ok (Some (length bs))
  | JNull => Err "Cannot read properties of null (reading 'length')"
  | JUndefined => Err "Cannot read properties of undefined (reading 'length')"
  | _ => Ok None
  end.

(** [value[0]]. *)
Definition js_index0 (v : JsValue) : JsValue :=
  match v with
  | JArr (x :: _) => x
  | JStr (String c _) => JStr (String c EmptyString)
  | JBytes (b :: _) => JNum (Z_of_byte b)
  | _ => JUndefined
  end.

(** [for (const val of value)]. *)
Definition js_iterate (v : JsValue) : result (list JsValue) :=
  match v with
  | JArr vs => Ok vs
  | JStr s => Ok (map (fun c => JStr (String c EmptyString)) (list_ascii_of_string s))
  | JBytes bs => Ok (map (fun b => JNum (Z_of_byte b)) bs)
  | _ => Err "value is not iterable"
  end.

(** [val.filter((v) => typeof v !== 'object')]. *)
Definition js_filter_non_object (v : JsValue) : result (list JsValue) :=
  match v with
  | JArr vs => Ok (filter (fun x => negb (String.eqb (typeof x) "object")) vs)
  | JBytes bs => Ok (map (fun b => JNum (Z_of_byte b)) bs)
  | JNull => Err "Cannot read properties of null (reading 'filter')"
  | JUndefined => Err "Cannot read properties of undefined (reading 'filter')"
  | _ => Err "val.filter is not a function"
  end.

(** The loop [for (const [k, v] of rawValues.entries())]: each raw value is
    named after the component of the same index; [components[k]] past the end
    is [undefined], and reading its [name] throws. *)
Fixpoint nameValues (components : list ParamType) (rawValues : list JsValue)
  : result (list JsValue) :=
  match rawValues with
  | [] => Ok []
  | v :: rest =>
      match components with
      | component :: components' =>
          named <- nameValues components' rest ;;
          Ok (JObj [("name", name_value (pt_name component));
                    ("type", JStr (pt_type component));
                    ("value", v)] :: named)
      | [] => Err "Cannot read properties of undefined (reading 'name')"
      end
  end.

(** The callback of [this.schema.map] in [decodeData], for the schema item [s]
    and the decoded value [value = values[i]]. *)
Definition decodeItem (s : SchemaItemWithSignature) (value : JsValue)
  : result SchemaDecodedItem :=
  fragment <- FunctionFragment_from ("func(" ++ s_signature s ++ ")") ;;
  match fragment with
  | [input] =>
      len <- js_length value ;;
      let value' :=
        match len, pt_components input with
        | Some (S _), Some components =>
            if isArray (js_index0 value) then
              vals <- js_iterate value ;;
              namedValues <- mapM (fun val =>
                                     rawValues <- js_filter_non_object val ;;
                                     namedValue <- nameValues components rawValues ;;
                                     Ok (JArr namedValue)) vals ;;
              Ok (mkSchemaItem (s_name s) (s_type s) (JArr namedValues))
            else
              rawValues <- js_filter_non_object value ;;
              namedValue <- nameValues components rawValues ;;
              Ok (mkSchemaItem (s_name s) (s_type s) (JArr namedValue))
        | _, _ => Ok (mkSchemaItem (s_name s) (s_type s) value)
        end in
      v <- value' ;;
      Ok (mkSchemaDecodedItem (s_name s) (s_type s) (s_signature s) v)
  | _ => Err "Unexpected inputs"
  end.

Fixpoint decodeItems (schema : list SchemaItemWithSignature) (values : list JsValue)
  : result (list SchemaDecodedItem) :=
  match schema with
  | [] => Ok []
  | s :: schema' =>
      d <- decodeItem s (hd JUndefined values) ;;
      ds <- decodeItems schema' (tl values) ;;
      Ok (d :: ds)
  end.

(** [SchemaEncoder.decodeData]. *)
Definition decodeData (schema : list SchemaItemWithSignature) (data : string)
  : result (list SchemaDecodedItem) :=
  values <- abi_decode (signatures schema) data ;;
  decodeItems schema values.

(** [SchemaEncoder.isEncodedDataValid]. *)
Definition isEncodedDataValid (schema : list SchemaItemWithSignature) (data : string) : bool :=
  match decodeData schema data with
  | Ok _ => true
  | Err _ => false
  end.

(** [SchemaEncoder.encodeQmHash]. *)
Definition encodeQmHash (hash : string) : result string :=
  a <- Multiformats.parse hash ;;
  abi_encode ["bytes32"] [JBytes (Multiformats.mh_digest (Multiformats.cid_multihash a))].

End SchemaEncoder.

(** [SchemaEncoder.isCID]. *)
Definition isCID (cid : string) : bool :=
  match Multiformats.parse cid with
  | Ok _ => true
  | Err _ => false
  end.

(** [Buffer.from(hex, 'hex')]: decoding stops at the first pair that is not
    two hexadecimal digits. *)
Fixpoint Buffer_from_hex (s : string) : list byte :=
  match s with
  | String a (String b rest) =>
      match hex_value a, hex_value b with
      | Some x, Some y => byte_of_Z (16 * x + y) :: Buffer_from_hex rest
      | _, _ => []
      end
  | _ => []
  end.

(** [SchemaEncoder.decodeQmHash]. *)
Definition decodeQmHash (bytes32 : string) : string :=
  let digest := Buffer_from_hex (substring 2 (String.length bytes32) bytes32) in
  let dec := Multiformats.mkDigest 18 32 digest (byte_of_Z 18 :: byte_of_Z 32 :: digest) in
  Multiformats.toStringV0 (Multiformats.createV0 dec).

(** The encoder with ethers' [FunctionFragment] and [defaultAbiCoder]. *)
Definition ethers_constructor : string -> result (list SchemaItemWithSignature) :=
  SchemaEncoder_constructor EthersFragments.FunctionFragment_from EthersAbi.getDefaultValue.
Definition ethers_encodeData : list SchemaItemWithSignature -> list SchemaItem -> result string :=
  encodeData EthersAbi.abi_encode.
Definition ethers_decodeData : list SchemaItemWithSignature -> string -> result (list SchemaDecodedItem) :=
  decodeData EthersFragments.FunctionFragment_from EthersAbi.abi_decode.

(** * Properties *)

(** ** String lemmas *)

Lemma starts_with_app (p b : string) : starts_with p (p ++ b) = true.
Proof.
  induction p as [| c p IH]; simpl; [reflexivity|].
  rewrite Ascii.eqb_refl, IH; reflexivity.
Qed.

Lemma includes_app_r (p a b : string) : includes p b = true -> includes p (a ++ b) = true.
Proof.
  intros H; induction a as [| c a IH]; simpl; [exact H|].
  rewrite IH, orb_true_r; reflexivity.
Qed.

Lemma includes_app_l (p b : string) : includes p (p ++ b) = true.
Proof.
  destruct p; simpl; [destruct b; reflexivity|].
  rewrite Ascii.eqb_refl, starts_with_app; reflexivity.
Qed.

Lemma includes_space_strip_ws (t : string) : includes " " (strip_ws t) = false.
Proof.
  induction t as [| c t IH]; simpl; [reflexivity|].
  destruct (is_ws c) eqn:Hws; [exact IH|].
  destruct (Ascii.eqb_spec " " c) as [<-|Hc]; [discriminate Hws|].
  change (includes " " (String c (strip_ws t)))
    with ((Ascii.eqb " " c && starts_with "" (strip_ws t)) || includes " " (strip_ws t)).
  apply Ascii.eqb_neq in Hc; rewrite Hc, IH; reflexivity.
Qed.

(** ** C7: a field-count mismatch fails first *)

(** C7: for every schema and every list of parameters of another length,
    [encodeData] throws ['Invalid number or values'], whatever the coder: no
    field is checked or transformed and the coder is not called. *)
Theorem encodeData_field_count_mismatch
  (abi_encode : list string -> list JsValue -> result string)
  (schema : list SchemaItemWithSignature) (params : list SchemaItem) :
  length params <> length schema ->
  encodeData abi_encode schema params = Err "Invalid number or values".
Proof.
  intros Hlen; unfold encodeData.
  apply Nat.eqb_neq in Hlen; rewrite Hlen; reflexivity.
Qed.

Lemma encodeData_field_count_mismatch_witness :
  length [mkSchemaItem (Some "x") "uint256" (JNum 1)] <> length ([] : list SchemaItemWithSignature)
  /\ ethers_encodeData [] [mkSchemaItem (Some "x") "uint256" (JNum 1)]
     = Err "Invalid number or values".
Proof.
  split; [discriminate|].
  apply (encodeData_field_count_mismatch EthersAbi.abi_encode [] [mkSchemaItem (Some "x") "uint256" (JNum 1)]).
  discriminate.
Defined.

(** ** C10: [isEncodedDataValid] reports whether [decodeData] succeeds *)

(** C10: for every parser, coder, schema and input, [isEncodedDataValid]
    returns [true] exactly when [decodeData] returns a result and [false]
    exactly when it throws; it returns a boolean in both cases. *)
Theorem isEncodedDataValid_iff_decodeData
  (FunctionFragment_from : string -> result (list ParamType))
  (abi_decode : list string -> string -> result (list JsValue))
  (schema : list SchemaItemWithSignature) (data : string) :
  (isEncodedDataValid FunctionFragment_from abi_decode schema data = true <->
     exists r, decodeData FunctionFragment_from abi_decode schema data = Ok r) /\
  (isEncodedDataValid FunctionFragment_from abi_decode schema data = false <->
     exists e, decodeData FunctionFragment_from abi_decode schema data = Err e).
Proof.
  unfold isEncodedDataValid.
  destruct (decodeData FunctionFragment_from abi_decode schema data) as [r|e].
  - split; split; intros H; try reflexivity; try discriminate.
    + exists r; reflexivity.
    + destruct H as [e He]; discriminate He.
  - split; split; intros H; try reflexivity; try discriminate.
    + destruct H as [r Hr]; discriminate Hr.
    + exists e; reflexivity.
Qed.

(** ** C2: the signature alternative of the type check *)

Lemma truthy_name_nonempty (n : string) : n <> "" -> truthy_name (Some n) = true.
Proof.
  intros Hn; simpl; destruct (String.eqb_spec n ""); [contradiction|reflexivity].
Qed.

(** C2: the signature of a named field holds a space, and a caller's type
    with its whitespace removed holds none: for a named field, no caller type
    passes the type check through [sanitizedType === schemaItem.signature], so
    passing the full signature (type, space, name) is refused. *)
Theorem sanitizedType_never_named_signature (p : ParamType) (n t : string) :
  pt_name p = Some n -> n <> "" ->
  strip_ws t <> s_signature (schemaItemOfParam p).
Proof.
  intros Hn Hne Heq.
  assert (Hsig : includes " " (s_signature (schemaItemOfParam p)) = true).
  { unfold schemaItemOfParam; rewrite Hn, (truthy_name_nonempty n Hne).
    destruct (String.eqb (pt_type p) TUPLE_TYPE);
      [|destruct (String.eqb (pt_type p) TUPLE_ARRAY_TYPE);
        [|destruct (includes "[]" (pt_type p))]];
      cbn [s_signature];
      first [ exact (includes_app_r _ _ _ (includes_app_l _ _))
            | exact (includes_app_r _ _ _ (includes_app_r _ "[]" _ (includes_app_l _ _))) ]. }
  rewrite <- Heq, includes_space_strip_ws in Hsig; discriminate Hsig.
Qed.

Lemma sanitizedType_never_named_signature_witness :
  pt_name (mkParamType (Some "x") "uint256" None) = Some "x" /\ "x" <> "" /\
  strip_ws "uint256 x" <> s_signature (schemaItemOfParam (mkParamType (Some "x") "uint256" None)).
Proof.
  split; [reflexivity|split; [discriminate|]].
  apply (sanitizedType_never_named_signature (mkParamType (Some "x") "uint256" None) "x" "uint256 x");
    [reflexivity|discriminate].
Defined.

(** ** C1: a tuple whose first component is an array *)

(** C1: the schema ["(uint8[] a,uint8 b) t"] is accepted and [encodeData]
    encodes the value [[[1], 2]]; ethers decodes the field back to [[[1], 2]],
    but [decodeData] takes the first component's array for the mark of a
    [tuple[]] value, calls [.filter] on the number [2] and throws: the decoding
    does not return one record per field. *)
Theorem decodeData_rejects_encoded_tuple :
  ethers_constructor "(uint8[] a,uint8 b) t"
    = Ok [mkSchemaItemWithSignature (Some "t") "(uint8[],uint8)" "(uint8[] a,uint8 b) t" (JArr [])] /\
  ethers_encodeData
    [mkSchemaItemWithSignature (Some "t") "(uint8[],uint8)" "(uint8[] a,uint8 b) t" (JArr [])]
    [mkSchemaItem (Some "t") "(uint8[],uint8)" (JArr [JArr [JNum 1]; JNum 2])]
    = Ok ("0x0000000000000000000000000000000000000000000000000000000000000020"
          ++ "0000000000000000000000000000000000000000000000000000000000000040"
          ++ "0000000000000000000000000000000000000000000000000000000000000002"
          ++ "0000000000000000000000000000000000000000000000000000000000000001"
          ++ "0000000000000000000000000000000000000000000000000000000000000001") /\
  EthersAbi.abi_decode ["(uint8[] a,uint8 b) t"]
    ("0x0000000000000000000000000000000000000000000000000000000000000020"
     ++ "0000000000000000000000000000000000000000000000000000000000000040"
     ++ "0000000000000000000000000000000000000000000000000000000000000002"
     ++ "0000000000000000000000000000000000000000000000000000000000000001"
     ++ "0000000000000000000000000000000000000000000000000000000000000001")
    = Ok [JArr [JArr [JNum 1]; JNum 2]] /\
  ethers_decodeData
    [mkSchemaItemWithSignature (Some "t") "(uint8[],uint8)" "(uint8[] a,uint8 b) t" (JArr [])]
    ("0x0000000000000000000000000000000000000000000000000000000000000020"
     ++ "0000000000000000000000000000000000000000000000000000000000000040"
     ++ "0000000000000000000000000000000000000000000000000000000000000002"
     ++ "0000000000000000000000000000000000000000000000000000000000000001"
     ++ "0000000000000000000000000000000000000000000000000000000000000001")
    = Err "val.filter is not a function".
Proof.
  repeat split; vm_compute; reflexivity.
Qed.

(** ** Strings that are not byte-like *)

Lemma hex_pairs_even (n : nat) (h : string) (bs : list byte) :
  (String.length h <= n)%nat -> hex_pairs h = Some bs -> Nat.even (String.length h) = true.
Proof.
  revert h bs; induction n as [| n IH]; intros h bs Hlen Hp.
  - destruct h; [reflexivity|simpl in Hlen; lia].
  - destruct h as [| a [| b h']]; [reflexivity|discriminate Hp|].
    simpl in Hp |- *.
    destruct (hex_value a), (hex_value b); try discriminate Hp.
    destruct (hex_pairs h') as [r|] eqn:Hr; [|discriminate Hp].
    simpl in Hlen; apply (IH h' r); [lia|exact Hr].
Qed.

(** [arrayify] throws on a string that is not byte-like. *)
Lemma arrayify_not_bytes_like (s : string) :
  isBytesLike (JStr s) = false -> exists e, arrayify (JStr s) = Err e.
Proof.
  intros H; destruct s as [| c0 s1]; [eexists; reflexivity|].
  destruct (ascii_dec c0 "0") as [->|Hc0].
  2:{ destruct c0 as [[] [] [] [] [] [] [] []];
      try (exfalso; apply Hc0; reflexivity); eexists; reflexivity. }
  destruct s1 as [| c1 h]; [eexists; reflexivity|].
  destruct (ascii_dec c1 "x") as [->|Hc1].
  2:{ destruct c1 as [[] [] [] [] [] [] [] []];
      try (exfalso; apply Hc1; reflexivity); eexists; reflexivity. }
  simpl in H |- *.
  destruct (all_hex h) eqn:Ha; [|eexists; reflexivity].
  destruct (hex_pairs h) as [bs|] eqn:Hp; [|eexists; reflexivity].
  apply (hex_pairs_even (String.length h)) in Hp; [|lia].
  rewrite Hp in H; discriminate H.
Qed.

Lemma coderOf_bytes32 : mapM EthersAbi.coderOf ["bytes32"] = Ok [EthersAbi.CFixedBytes 32].
Proof. vm_compute; reflexivity. Qed.

(** [defaultAbiCoder.encode(['bytes32'], [v])] throws when [arrayify(v)] does. *)
Lemma abi_encode_bytes32_arrayify_error (v : JsValue) (e : string) :
  arrayify v = Err e -> EthersAbi.abi_encode ["bytes32"] [v] = Err e.
Proof.
  intros He; unfold EthersAbi.abi_encode; cbn [length Nat.eqb negb].
  rewrite coderOf_bytes32; cbn -[arrayify]; rewrite He; reflexivity.
Qed.

Lemma eqb_name_refl (n : option string) : eqb_name n n = true.
Proof. destruct n; simpl; [apply String.eqb_refl|reflexivity]. Qed.

(** The type check of [encodeData] passes for a caller type equal to the
    descriptor's type, to its signature, or to ['ipfsHash'] on a [bytes32]
    descriptor. *)
Lemma encodeItem_type_check_passes (schemaItem : SchemaItemWithSignature) (param : SchemaItem) :
  (strip_ws (si_type param) = s_type schemaItem \/
   strip_ws (si_type param) = s_signature schemaItem \/
   (strip_ws (si_type param) = "ipfsHash" /\ s_type schemaItem = "bytes32")) ->
  negb (String.eqb (strip_ws (si_type param)) (s_type schemaItem))
  && negb (String.eqb (strip_ws (si_type param)) (s_signature schemaItem))
  && negb (String.eqb (strip_ws (si_type param)) "ipfsHash"
           && String.eqb (s_type schemaItem) "bytes32") = false.
Proof.
  intros [H|[H|[H1 H2]]].
  - rewrite H, String.eqb_refl; reflexivity.
  - rewrite H, String.eqb_refl, andb_false_r; reflexivity.
  - rewrite H1, H2; cbn [negb String.eqb Ascii.eqb Bool.eqb andb]; apply andb_false_r.
Qed.

(** A field whose [encodeItem] throws makes [encodeData] throw. *)
Lemma encodeItems_item_error (coder : list string -> list JsValue -> result string)
  (schema : list SchemaItemWithSignature) (params : list SchemaItem)
  (schemaItem : SchemaItemWithSignature) (param : SchemaItem) (e : string) :
  In (schemaItem, param) (combine schema params) ->
  encodeItem coder schemaItem param = Err e ->
  exists e', encodeItems coder schema params = Err e'.
Proof.
  revert params; induction schema as [| s schema IH]; intros [| p params] Hin He;
    try contradiction.
  cbn [combine In] in Hin; cbn [encodeItems].
  destruct Hin as [Heq|Hin].
  - injection Heq as -> ->; rewrite He; exists e; reflexivity.
  - destruct (encodeItem coder s p) as [v|e1]; cbn [Js.bind]; [|exists e1; reflexivity].
    destruct (IH params Hin He) as [e' ->]; exists e'; reflexivity.
Qed.

Lemma encodeData_item_error (coder : list string -> list JsValue -> result string)
  (schema : list SchemaItemWithSignature) (params : list SchemaItem)
  (schemaItem : SchemaItemWithSignature) (param : SchemaItem) (e : string) :
  In (schemaItem, param) (combine schema params) ->
  encodeItem coder schemaItem param = Err e ->
  exists e', encodeData coder schema params = Err e'.
Proof.
  intros Hin He; unfold encodeData.
  destruct (negb _); [eexists; reflexivity|].
  destruct (encodeItems_item_error coder schema params schemaItem param e Hin He) as [e' ->].
  exists e'; reflexivity.
Qed.

(** ** C4: a [bytes32] field given a text *)

(** C4 (amended): in [encodeData], for a field whose descriptor type is
    [bytes32] and whose name is not ['ipfsHash'], a caller's value that passes
    the checks and is a string [s] that is not byte-like is replaced by the
    UTF-8 bytes of [s] right-padded to 32 bytes when they are at most 31 bytes;
    when they are more, [formatBytes32String] throws ['bytes32 string must be
    less than 32 bytes'], and [encodeData] throws for every schema and value
    list holding that field and that value at the same index: nothing is
    truncated. *)
Theorem encodeItem_bytes32_text
  (abi_encode : list string -> list JsValue -> result string)
  (schemaItem : SchemaItemWithSignature) (param : SchemaItem) (s : string) :
  s_type schemaItem = "bytes32" ->
  s_name schemaItem <> Some "ipfsHash" ->
  (strip_ws (si_type param) = s_type schemaItem \/
   strip_ws (si_type param) = s_signature schemaItem \/
   strip_ws (si_type param) = "ipfsHash") ->
  si_name param = s_name schemaItem ->
  si_value param = JStr s ->
  isBytesLike (JStr s) = false ->
  encodeItem abi_encode schemaItem param =
    (if 31 <? Z.of_nat (length (toUtf8Bytes s))
     then Err "bytes32 string must be less than 32 bytes"
     else Ok (JStr (hexlify (firstn 32 (toUtf8Bytes s ++ HashZero))))) /\
  (31 < Z.of_nat (length (toUtf8Bytes s)) ->
   forall schema params, In (schemaItem, param) (combine schema params) ->
   exists e, encodeData abi_encode schema params = Err e).
Proof.
  intros Htype Hname Hcheck Hpname Hval Hbytes.
  assert (Hitem : encodeItem abi_encode schemaItem param =
    if 31 <? Z.of_nat (length (toUtf8Bytes s))
    then Err "bytes32 string must be less than 32 bytes"
    else Ok (JStr (hexlify (firstn 32 (toUtf8Bytes s ++ HashZero))))).
  { unfold encodeItem.
    rewrite (encodeItem_type_check_passes schemaItem param)
      by (destruct Hcheck as [H|[H|H]]; [left|right; left|right; right]; tauto).
    rewrite Hpname, eqb_name_refl, Hval, Htype; cbn [negb].
    destruct (s_name schemaItem) as [n|]; cbn [eqb_name].
    - destruct (String.eqb_spec n "ipfsHash") as [->|_]; [contradiction|].
      cbn [andb typeof]; rewrite String.eqb_refl, Hbytes; cbn [andb negb].
      unfold formatBytes32String; cbn zeta.
      destruct (31 <? Z.of_nat (length (toUtf8Bytes s))); reflexivity.
    - cbn [andb typeof]; rewrite String.eqb_refl, Hbytes; cbn [andb negb].
      unfold formatBytes32String; cbn zeta.
      destruct (31 <? Z.of_nat (length (toUtf8Bytes s))); reflexivity. }
  split; [exact Hitem|].
  intros Hlong schema params Hin.
  rewrite (proj2 (Z.ltb_lt _ _) Hlong) in Hitem.
  exact (encodeData_item_error abi_encode schema params schemaItem param _ Hin Hitem).
Qed.

Lemma encodeItem_bytes32_text_witness :
  encodeItem EthersAbi.abi_encode
    (mkSchemaItemWithSignature (Some "name") "bytes32" "bytes32 name" (JStr ""))
    (mkSchemaItem (Some "name") "bytes32" (JStr "hello"))
    = Ok (JStr "0x68656c6c6f000000000000000000000000000000000000000000000000000000") /\
  exists e, encodeData EthersAbi.abi_encode
    [mkSchemaItemWithSignature (Some "name") "bytes32" "bytes32 name" (JStr "")]
    [mkSchemaItem (Some "name") "bytes32"
       (JStr "this string is definitely longer than thirty-two bytes")] = Err e.
Proof.
  split.
  - destruct (encodeItem_bytes32_text EthersAbi.abi_encode
                (mkSchemaItemWithSignature (Some "name") "bytes32" "bytes32 name" (JStr ""))
                (mkSchemaItem (Some "name") "bytes32" (JStr "hello")) "hello"
                eq_refl ltac:(discriminate) (or_introl eq_refl) eq_refl eq_refl eq_refl) as [H _].
    rewrite H; vm_compute; reflexivity.
  - destruct (encodeItem_bytes32_text EthersAbi.abi_encode
                (mkSchemaItemWithSignature (Some "name") "bytes32" "bytes32 name" (JStr ""))
                (mkSchemaItem (Some "name") "bytes32"
                   (JStr "this string is definitely longer than thirty-two bytes"))
                "this string is definitely longer than thirty-two bytes"
                eq_refl ltac:(discriminate) (or_introl eq_refl) eq_refl eq_refl
                ltac:(vm_compute; reflexivity)) as [_ H].
    apply H; [vm_compute; reflexivity | left; reflexivity].
Defined.

(** C4 counterexample: with the schema ["bytes32 name"], a text of 55
    characters is not truncated: [encodeData] throws. *)
Lemma encodeData_long_bytes32_text_throws :
  ethers_constructor "bytes32 name"
    = Ok [mkSchemaItemWithSignature (Some "name") "bytes32" "bytes32 name" (JStr "")] /\
  ethers_encodeData
    [mkSchemaItemWithSignature (Some "name") "bytes32" "bytes32 name" (JStr "")]
    [mkSchemaItem (Some "name") "bytes32"
       (JStr "this string is definitely longer than thirty-two bytes")]
    = Err "bytes32 string must be less than 32 bytes".
Proof. split; vm_compute; reflexivity. Qed.

(** ** C3: the content-hash path on a text *)

(** C3 (amended): for every string [s] that [CID.parse] rejects and that is
    not byte-like, [decodeIpfsValue] falls back to [formatBytes32String]: it
    returns the UTF-8 bytes of [s] right-padded to 32 bytes when they are at
    most 31 bytes, and throws ['bytes32 string must be less than 32 bytes']
    when they are more. [encodeData] takes that path for a [bytes32] field
    named ['ipfsHash'], and then throws with it for every schema and value
    list holding that field and the value [s] at the same index. *)
Theorem decodeIpfsValue_non_cid_text (s : string) :
  (exists e, Multiformats.parse s = Err e) ->
  isBytesLike (JStr s) = false ->
  decodeIpfsValue EthersAbi.abi_encode (JStr s) =
    (if 31 <? Z.of_nat (length (toUtf8Bytes s))
     then Err "bytes32 string must be less than 32 bytes"
     else Ok (JStr (hexlify (firstn 32 (toUtf8Bytes s ++ HashZero))))) /\
  (forall schemaItem param schema params,
     s_type schemaItem = "bytes32" ->
     s_name schemaItem = Some "ipfsHash" ->
     (strip_ws (si_type param) = s_type schemaItem \/
      strip_ws (si_type param) = s_signature schemaItem \/
      strip_ws (si_type param) = "ipfsHash") ->
     si_name param = s_name schemaItem ->
     si_value param = JStr s ->
     In (schemaItem, param) (combine schema params) ->
     encodeItem EthersAbi.abi_encode schemaItem param = decodeIpfsValue EthersAbi.abi_encode (JStr s) /\
     (31 < Z.of_nat (length (toUtf8Bytes s)) ->
      exists e, encodeData EthersAbi.abi_encode schema params = Err e)).
Proof.
  intros [e He] Hbytes.
  assert (Hdec : decodeIpfsValue EthersAbi.abi_encode (JStr s) =
    if 31 <? Z.of_nat (length (toUtf8Bytes s))
    then Err "bytes32 string must be less than 32 bytes"
    else Ok (JStr (hexlify (firstn 32 (toUtf8Bytes s ++ HashZero))))).
  { unfold decodeIpfsValue; rewrite Hbytes.
    cbn [try_catch bind]; rewrite He; cbn [try_catch bind].
    unfold encodeBytes32Value.
    destruct (arrayify_not_bytes_like s Hbytes) as [e' He'].
    rewrite (abi_encode_bytes32_arrayify_error _ _ He'); cbn [try_catch bind].
    unfold formatBytes32String_js; cbn [toUtf8Bytes_js bind].
    destruct (31 <? Z.of_nat (length (toUtf8Bytes s))); reflexivity. }
  split; [exact Hdec|].
  intros schemaItem param schema params Htype Hname Hcheck Hpname Hval Hin.
  assert (Hitem : encodeItem EthersAbi.abi_encode schemaItem param
                  = decodeIpfsValue EthersAbi.abi_encode (JStr s)).
  { unfold encodeItem.
    rewrite (encodeItem_type_check_passes schemaItem param)
      by (destruct Hcheck as [H|[H|H]]; [left|right; left|right; right]; tauto).
    rewrite Hpname, eqb_name_refl, Hval, Htype, Hname; reflexivity. }
  split; [exact Hitem|].
  intros Hlong; rewrite Hdec, (proj2 (Z.ltb_lt _ _) Hlong) in Hitem.
  exact (encodeData_item_error _ schema params schemaItem param _ Hin Hitem).
Qed.

Lemma decodeIpfsValue_non_cid_text_witness :
  decodeIpfsValue EthersAbi.abi_encode (JStr "hello")
    = Ok (JStr "0x68656c6c6f000000000000000000000000000000000000000000000000000000") /\
  exists e, encodeData EthersAbi.abi_encode
    [mkSchemaItemWithSignature (Some "ipfsHash") "bytes32" "bytes32 ipfsHash" (JStr "")]
    [mkSchemaItem (Some "ipfsHash") "bytes32"
       (JStr "this string is definitely longer than thirty-two bytes")] = Err e.
Proof.
  split.
  - destruct (decodeIpfsValue_non_cid_text "hello" ltac:(eexists; reflexivity) eq_refl) as [H _].
    rewrite H; vm_compute; reflexivity.
  - destruct (decodeIpfsValue_non_cid_text "this string is definitely longer than thirty-two bytes"
                ltac:(eexists; vm_compute; reflexivity) ltac:(vm_compute; reflexivity)) as [_ H].
    apply (H (mkSchemaItemWithSignature (Some "ipfsHash") "bytes32" "bytes32 ipfsHash" (JStr ""))
             (mkSchemaItem (Some "ipfsHash") "bytes32"
                (JStr "this string is definitely longer than thirty-two bytes")));
      [reflexivity | reflexivity | left; reflexivity | reflexivity | reflexivity
      | left; reflexivity | vm_compute; reflexivity].
Defined.

(** C3 counterexample: a text of 55 characters that is neither a CID nor
    byte-like makes [decodeIpfsValue] throw, also when [encodeData] reaches it
    through a field that ethers names ['ipfsHash']. *)
Lemma decodeIpfsValue_long_text_throws :
  Multiformats.parse "this string is definitely longer than thirty-two bytes"
    = Err "To parse non base32 or base58btc encoded CID multibase decoder must be provided" /\
  isBytesLike (JStr "this string is definitely longer than thirty-two bytes") = false /\
  decodeIpfsValue EthersAbi.abi_encode
    (JStr "this string is definitely longer than thirty-two bytes")
    = Err "bytes32 string must be less than 32 bytes" /\
  ethers_constructor "bytes32 ipfs()Hash"
    = Ok [mkSchemaItemWithSignature (Some "ipfsHash") "bytes32" "bytes32 ipfsHash" (JStr "")] /\
  ethers_encodeData
    [mkSchemaItemWithSignature (Some "ipfsHash") "bytes32" "bytes32 ipfsHash" (JStr "")]
    [mkSchemaItem (Some "ipfsHash") "bytes32"
       (JStr "this string is definitely longer than thirty-two bytes")]
    = Err "bytes32 string must be less than 32 bytes".
Proof. repeat split; vm_compute; reflexivity. Qed.

(** ** C9: the default values of the constructor *)

(** C9 (code bug): the constructor gives the default [[]] to every field
    whose canonical type contains ["[]"]: the tuple ["(uint256 a,bool[] b) t"]
    is not an array but gets [[]], and the fixed-length array ["bool[2] c"]
    gets [""]. *)
Lemma constructor_defaults_tuple_and_fixed_array :
  ethers_constructor "(uint256 a,bool[] b) t, bool[2] c"
    = Ok [mkSchemaItemWithSignature (Some "t") "(uint256,bool[])" "(uint256 a,bool[] b) t" (JArr []);
          mkSchemaItemWithSignature (Some "c") "bool[2]" "bool[2] c" (JStr "")].
Proof. vm_compute; reflexivity. Qed.

(** ** C6: names of the decoded tuple components *)

(** C6 (code bug): [decodeData] drops every component value of [typeof]
    ['object'] before naming the rest by position. The [BigNumber]s that
    ethers returns for integers wider than 48 bits are objects, so the
    spec's own tuple example ["(uint256 x,uint256 y) point"] with the value
    [[1, 2]] encodes and then decodes to an empty tuple; with
    ["(uint256 a,uint8 b) t"] and [[1, 2]] the value [2] comes back under the
    name [a] and type [uint256]; with ["(uint8 a,uint8[] b,uint8 c) t"] and
    [[1, [2], 3]] the array is dropped and [3] is named [b]. *)
Lemma decodeData_drops_object_components :
  ethers_constructor "(uint256 x,uint256 y) point"
    = Ok [mkSchemaItemWithSignature (Some "point") "(uint256,uint256)"
            "(uint256 x,uint256 y) point" (JStr "")] /\
  ethers_encodeData
    [mkSchemaItemWithSignature (Some "point") "(uint256,uint256)"
       "(uint256 x,uint256 y) point" (JStr "")]
    [mkSchemaItem (Some "point") "(uint256,uint256)" (JArr [JNum 1; JNum 2])]
    = Ok ("0x0000000000000000000000000000000000000000000000000000000000000001" ++ "0000000000000000000000000000000000000000000000000000000000000002") /\
  ethers_decodeData
    [mkSchemaItemWithSignature (Some "point") "(uint256,uint256)"
       "(uint256 x,uint256 y) point" (JStr "")]
    ("0x0000000000000000000000000000000000000000000000000000000000000001" ++ "0000000000000000000000000000000000000000000000000000000000000002")
    = Ok [mkSchemaDecodedItem (Some "point") "(uint256,uint256)" "(uint256 x,uint256 y) point"
            (mkSchemaItem (Some "point") "(uint256,uint256)" (JArr []))] /\
  ethers_constructor "(uint256 a,uint8 b) t"
    = Ok [mkSchemaItemWithSignature (Some "t") "(uint256,uint8)" "(uint256 a,uint8 b) t" (JStr "")] /\
  ethers_encodeData
    [mkSchemaItemWithSignature (Some "t") "(uint256,uint8)" "(uint256 a,uint8 b) t" (JStr "")]
    [mkSchemaItem (Some "t") "(uint256,uint8)" (JArr [JNum 1; JNum 2])]
    = Ok ("0x0000000000000000000000000000000000000000000000000000000000000001" ++ "0000000000000000000000000000000000000000000000000000000000000002") /\
  ethers_decodeData
    [mkSchemaItemWithSignature (Some "t") "(uint256,uint8)" "(uint256 a,uint8 b) t" (JStr "")]
    ("0x0000000000000000000000000000000000000000000000000000000000000001" ++ "0000000000000000000000000000000000000000000000000000000000000002")
    = Ok [mkSchemaDecodedItem (Some "t") "(uint256,uint8)" "(uint256 a,uint8 b) t"
            (mkSchemaItem (Some "t") "(uint256,uint8)"
               (JArr [JObj [("name", JStr "a"); ("type", JStr "uint256"); ("value", JNum 2)]]))] /\
  ethers_constructor "(uint8 a,uint8[] b,uint8 c) t"
    = Ok [mkSchemaItemWithSignature (Some "t") "(uint8,uint8[],uint8)"
            "(uint8 a,uint8[] b,uint8 c) t" (JArr [])] /\
  ethers_encodeData
    [mkSchemaItemWithSignature (Some "t") "(uint8,uint8[],uint8)"
       "(uint8 a,uint8[] b,uint8 c) t" (JArr [])]
    [mkSchemaItem (Some "t") "(uint8,uint8[],uint8)" (JArr [JNum 1; JArr [JNum 2]; JNum 3])]
    = Ok ("0x0000000000000000000000000000000000000000000000000000000000000020"
          ++ "0000000000000000000000000000000000000000000000000000000000000001"
          ++ "0000000000000000000000000000000000000000000000000000000000000060"
          ++ "0000000000000000000000000000000000000000000000000000000000000003"
          ++ "0000000000000000000000000000000000000000000000000000000000000001"
          ++ "0000000000000000000000000000000000000000000000000000000000000002") /\
  ethers_decodeData
    [mkSchemaItemWithSignature (Some "t") "(uint8,uint8[],uint8)"
       "(uint8 a,uint8[] b,uint8 c) t" (JArr [])]
    ("0x0000000000000000000000000000000000000000000000000000000000000020"
     ++ "0000000000000000000000000000000000000000000000000000000000000001"
     ++ "0000000000000000000000000000000000000000000000000000000000000060"
     ++ "0000000000000000000000000000000000000000000000000000000000000003"
     ++ "0000000000000000000000000000000000000000000000000000000000000001"
     ++ "0000000000000000000000000000000000000000000000000000000000000002")
    = Ok [mkSchemaDecodedItem (Some "t") "(uint8,uint8[],uint8)" "(uint8 a,uint8[] b,uint8 c) t"
            (mkSchemaItem (Some "t") "(uint8,uint8[],uint8)"
               (JArr [JObj [("name", JStr "a"); ("type", JStr "uint8"); ("value", JNum 1)];
                      JObj [("name", JStr "b"); ("type", JStr "uint8[]"); ("value", JNum 3)]]))].
Proof. repeat split; vm_compute; reflexivity. Qed.

(** ** C5: the replacement of ['ipfsHash'] *)

Lemma starts_with_split (p s : string) :
  starts_with p s = true -> exists r, s = p ++ r.
Proof.
  revert s; induction p as [| c p IH]; intros s H; [exists s; reflexivity|].
  destruct s as [| d s]; [discriminate H|].
  simpl in H; apply andb_prop in H; destruct H as [Hc H].
  apply Ascii.eqb_eq in Hc; subst d.
  destruct (IH s H) as [r ->]; exists r; reflexivity.
Qed.

Lemma includes_split (p s : string) :
  includes p s = true -> exists a b, s = a ++ p ++ b.
Proof.
  induction s as [| c s IH]; intros H.
  - destruct p; [|discriminate H]. exists "", ""; reflexivity.
  - change (starts_with p (String c s) || includes p s = true) in H.
    apply orb_prop in H; destruct H as [H|H].
    + destruct (starts_with_split p _ H) as [r Hr]; exists "", r; exact Hr.
    + destruct (IH H) as [a [b ->]]; exists (String c a), b; reflexivity.
Qed.

Lemma append_assoc_s (a b c : string) : (a ++ b) ++ c = a ++ b ++ c.
Proof. induction a as [| x a IH]; simpl; [reflexivity|rewrite IH; reflexivity]. Qed.

(** [includes] is transitive: a text that holds [n] holds what [n] holds. *)
Lemma includes_trans (p n src : string) :
  includes p n = true -> includes n src = true -> includes p src = true.
Proof.
  intros Hp Hn.
  destruct (includes_split n src Hn) as [a [b ->]].
  destruct (includes_split p n Hp) as [c [d ->]].
  apply includes_app_r; rewrite !append_assoc_s.
  apply includes_app_r; apply includes_app_l.
Qed.

(** The text that [replace_ipfsHash] copies: the source's match falls through
    to its last case on a text that does not start with ['ipfsHash']. *)
Lemma replace_ipfsHash_copy (c : ascii) (rest : string) :
  starts_with "ipfsHash" (String c rest) = false ->
  replace_ipfsHash (String c rest) = String c (replace_ipfsHash rest).
Proof.
  intros H.
  destruct c as [[] [] [] [] [] [] [] []]; try reflexivity.
  destruct rest as [| c2 rest]; [reflexivity|].
  destruct c2 as [[] [] [] [] [] [] [] []]; try reflexivity.
  destruct rest as [| c3 rest]; [reflexivity|].
  destruct c3 as [[] [] [] [] [] [] [] []]; try reflexivity.
  destruct rest as [| c4 rest]; [reflexivity|].
  destruct c4 as [[] [] [] [] [] [] [] []]; try reflexivity.
  destruct rest as [| c5 rest]; [reflexivity|].
  destruct c5 as [[] [] [] [] [] [] [] []]; try reflexivity.
  destruct rest as [| c6 rest]; [reflexivity|].
  destruct c6 as [[] [] [] [] [] [] [] []]; try reflexivity.
  destruct rest as [| c7 rest]; [reflexivity|].
  destruct c7 as [[] [] [] [] [] [] [] []]; try reflexivity.
  destruct rest as [| c8 rest]; [reflexivity|].
  destruct c8 as [[] [] [] [] [] [] [] []]; try reflexivity.
  discriminate H.
Qed.

Lemma replace_ipfsHash_hit (r : string) :
  replace_ipfsHash ("ipfsHash" ++ r) = "bytes32" ++ replace_ipfsHash r.
Proof. reflexivity. Qed.

(** A prefix of the output without ['b'] was copied from the input: every
    replacement starts with ['b']. *)
Lemma replace_ipfsHash_prefix (p s : string) :
  includes "b" p = false ->
  starts_with p (replace_ipfsHash s) = true -> starts_with p s = true.
Proof.
  revert s; induction p as [| c p IH]; intros s Hb H; [destruct s; reflexivity|].
  assert (Hc : Ascii.eqb "b" c = false /\ includes "b" p = false).
  { change ((Ascii.eqb "b" c && starts_with "" p) || includes "b" p = false) in Hb.
    apply orb_false_iff in Hb; destruct Hb as [H1 H2].
    rewrite andb_true_r in H1; split; assumption. }
  destruct Hc as [Hc Hp].
  destruct s as [| d s]; [discriminate H|].
  destruct (starts_with "ipfsHash" (String d s)) eqn:Hs.
  - destruct (starts_with_split _ _ Hs) as [r Hr]; rewrite Hr, replace_ipfsHash_hit in H.
    simpl in H; rewrite Ascii.eqb_sym, Hc in H; discriminate H.
  - rewrite (replace_ipfsHash_copy d s Hs) in H.
    simpl in H |- *; apply andb_prop in H; destruct H as [H1 H2].
    rewrite H1, (IH s Hp H2); reflexivity.
Qed.

Lemma includes_cons_ne (c d : ascii) (p s : string) :
  Ascii.eqb c d = false -> includes (String c p) (String d s) = includes (String c p) s.
Proof. intros H; change ((Ascii.eqb c d && starts_with p s) || includes (String c p) s = includes (String c p) s).
  rewrite H; reflexivity. Qed.

(** The output of [replace_ipfsHash] holds no ['ipfsHash']. *)
Lemma replace_ipfsHash_no_occurrence (s : string) :
  includes "ipfsHash" (replace_ipfsHash s) = false.
Proof.
  remember (String.length s) as len eqn:Hlen.
  revert s Hlen; induction len as [len IH] using (well_founded_induction lt_wf).
  intros s Hlen; destruct s as [| c rest]; [reflexivity|].
  destruct (starts_with "ipfsHash" (String c rest)) eqn:Hs.
  - destruct (starts_with_split _ _ Hs) as [r Hr]; rewrite Hr, replace_ipfsHash_hit.
    cbn [append]; rewrite !includes_cons_ne by reflexivity.
    apply (IH (String.length r)); [|reflexivity].
    rewrite Hlen, Hr; simpl; lia.
  - rewrite (replace_ipfsHash_copy c rest Hs).
    change (starts_with "ipfsHash" (String c (replace_ipfsHash rest))
            || includes "ipfsHash" (replace_ipfsHash rest) = false).
    rewrite (IH (String.length rest)); [|rewrite Hlen; simpl; lia|reflexivity].
    rewrite orb_false_r.
    destruct (starts_with "ipfsHash" (String c (replace_ipfsHash rest))) eqn:Ho; [|reflexivity].
    change (Ascii.eqb "i" c && starts_with "pfsHash" (replace_ipfsHash rest) = true) in Ho.
    apply andb_prop in Ho; destruct Ho as [Hi Ho].
    apply replace_ipfsHash_prefix in Ho; [|reflexivity].
    change (Ascii.eqb "i" c && starts_with "pfsHash" rest = false) in Hs.
    rewrite Hi, Ho in Hs; discriminate Hs.
Qed.

Lemma starts_with_app_rparen (p y : string) :
  includes ")" p = false -> starts_with p (y ++ ")") = starts_with p y.
Proof.
  revert y; induction p as [| c p IH]; intros y Hp; [destruct y; reflexivity|].
  change ((Ascii.eqb ")" c && starts_with "" p) || includes ")" p = false) in Hp.
  apply orb_false_iff in Hp; destruct Hp as [Hc Hp]; rewrite andb_true_r in Hc.
  destruct y as [| d y].
  - simpl; rewrite Ascii.eqb_sym, Hc; reflexivity.
  - simpl; rewrite IH by exact Hp; reflexivity.
Qed.

(** The text handed to [FunctionFragment.from] holds no ['ipfsHash']. *)
Lemma fragment_text_no_occurrence (schema : string) :
  includes "ipfsHash" ("func(" ++ replace_ipfsHash schema ++ ")") = false.
Proof.
  cbn [append]; rewrite !includes_cons_ne by reflexivity.
  generalize (replace_ipfsHash_no_occurrence schema).
  generalize (replace_ipfsHash schema) as x.
  induction x as [| c x IH]; intros H; [reflexivity|].
  change (starts_with "ipfsHash" (String c (x ++ ")")) || includes "ipfsHash" (x ++ ")") = false).
  change (starts_with "ipfsHash" (String c x) || includes "ipfsHash" x = false) in H.
  apply orb_false_iff in H; destruct H as [H1 H2].
  change (String c (x ++ ")")) with (String c x ++ ")").
  rewrite starts_with_app_rparen, H1, IH by (reflexivity || exact H2); reflexivity.
Qed.

Lemma s_name_schemaItemOfParam (p : ParamType) : s_name (schemaItemOfParam p) = pt_name p.
Proof.
  unfold schemaItemOfParam.
  destruct (String.eqb (pt_type p) TUPLE_TYPE);
    [|destruct (String.eqb (pt_type p) TUPLE_ARRAY_TYPE); [|destruct (includes "[]" (pt_type p))]];
    reflexivity.
Qed.

(** C5 (amended): the replacement leaves no ['ipfsHash'] in the text handed
    to [FunctionFragment.from], for every schema. So for every field of a
    constructed encoder whose name occurs verbatim in that text, the name holds
    no ['ipfsHash'], and the [encodeData] branch for a [bytes32] field named
    ['ipfsHash'] is not taken for that field. *)
Theorem constructor_contiguous_names_no_ipfsHash
  (FunctionFragment_from : string -> result (list ParamType))
  (getDefaultValue : list ParamType -> result unit)
  (schema : string) :
  includes "ipfsHash" ("func(" ++ replace_ipfsHash schema ++ ")") = false /\
  forall encoder item n,
    SchemaEncoder_constructor FunctionFragment_from getDefaultValue schema = Ok encoder ->
    In item encoder ->
    s_name item = Some n ->
    includes n ("func(" ++ replace_ipfsHash schema ++ ")") = true ->
    includes "ipfsHash" n = false /\
    String.eqb (s_type item) "bytes32" && eqb_name (s_name item) (Some "ipfsHash") = false.
Proof.
  split; [apply fragment_text_no_occurrence|].
  intros encoder item n _ _ Hn Hin.
  assert (Hfree : includes "ipfsHash" n = false).
  { destruct (includes "ipfsHash" n) eqn:Hi; [|reflexivity].
    rewrite <- (fragment_text_no_occurrence schema).
    symmetry; exact (includes_trans _ _ _ Hi Hin). }
  split; [exact Hfree|].
  rewrite Hn; cbn [eqb_name].
  destruct (String.eqb_spec n "ipfsHash") as [->|]; [discriminate Hfree|apply andb_false_r].
Qed.

Lemma constructor_contiguous_names_no_ipfsHash_witness :
  includes "ipfsHash" ("func(" ++ replace_ipfsHash "bytes32 ipfs()Hash, uint8 x" ++ ")") = false /\
  includes "ipfsHash" "x" = false /\
  String.eqb "uint8" "bytes32" && eqb_name (Some "x") (Some "ipfsHash") = false.
Proof.
  destruct (constructor_contiguous_names_no_ipfsHash
              EthersFragments.FunctionFragment_from EthersAbi.getDefaultValue
              "bytes32 ipfs()Hash, uint8 x") as [H0 H].
  destruct (H [mkSchemaItemWithSignature (Some "ipfsHash") "bytes32" "bytes32 ipfsHash" (JStr "");
               mkSchemaItemWithSignature (Some "x") "uint8" "uint8 x" (JStr "0")]
              (mkSchemaItemWithSignature (Some "x") "uint8" "uint8 x" (JStr "0")) "x"
              ltac:(vm_compute; reflexivity) ltac:(right; left; reflexivity) eq_refl
              ltac:(vm_compute; reflexivity)) as [H1 H2].
  split; [exact H0|split; [exact H1|exact H2]].
Defined.

(** C5 counterexample: ethers' parser keeps appending to a name after a
    parenthesised group, so the schema ["bytes32 ipfs()Hash"], which holds no
    ['ipfsHash'], gives a [bytes32] field named ['ipfsHash']; [encodeData]
    then sends its value through [decodeIpfsValue] and encodes the digest of
    a CID text. *)
Lemma constructor_assembles_ipfsHash_name :
  ethers_constructor "bytes32 ipfs()Hash"
    = Ok [mkSchemaItemWithSignature (Some "ipfsHash") "bytes32" "bytes32 ipfsHash" (JStr "")] /\
  ethers_encodeData
    [mkSchemaItemWithSignature (Some "ipfsHash") "bytes32" "bytes32 ipfsHash" (JStr "")]
    [mkSchemaItem (Some "ipfsHash") "bytes32" (JStr "QmYwAPJzv5CZsnA625s3Xf2nemtYgPpHdWEz79ojWnPbdG")]
    = Ok "0x9d6c2be50f706953479ab9df2ce3edca90b68053c00b3004b7f0accbe1e8eedf".
Proof. split; vm_compute; reflexivity. Qed.

(** ** Positional numerals *)

Section DigitsFacts.
Import Digits.

Variable B : Z.
Hypothesis HB : 2 <= B.

Lemma digits_le_range (fuel : nat) (n x : Z) :
  In x (digits_le B fuel n) -> 0 <= x < B.
Proof.
  revert n; induction fuel as [| f IH]; intros n Hin; simpl in Hin; [contradiction|].
  destruct (n <=? 0); [contradiction|].
  destruct Hin as [<-|Hin]; [apply Z.mod_pos_bound; lia|exact (IH _ Hin)].
Qed.

Lemma value_digits_le (fuel : nat) (n : Z) :
  0 <= n < 2 ^ Z.of_nat fuel -> value_le B (digits_le B fuel n) = n.
Proof.
  revert n; induction fuel as [| f IH]; intros n Hn; simpl.
  - simpl in Hn; lia.
  - destruct (Z.leb_spec n 0); [simpl; lia|].
    simpl; rewrite IH; [rewrite (Z.div_mod n B) at 3 by lia; lia|].
    split; [apply Z.div_pos; lia|].
    rewrite Nat2Z.inj_succ, Z.pow_succ_r in Hn by lia.
    apply Z.div_lt_upper_bound; [lia|].
    assert (0 < 2 ^ Z.of_nat f) by (apply Z.pow_pos_nonneg; lia).
    nia.
Qed.

Lemma value_le_nonneg (ds : list Z) :
  (forall x, In x ds -> 0 <= x < B) -> 0 <= value_le B ds.
Proof.
  induction ds as [| x ds IH]; intros H; simpl; [lia|].
  assert (0 <= x) by (apply H; left; reflexivity).
  assert (0 <= value_le B ds) by (apply IH; intros y Hy; apply H; right; exact Hy).
  nia.
Qed.

Lemma value_le_bound (ds : list Z) :
  (forall x, In x ds -> 0 <= x < B) -> value_le B ds < B ^ Z.of_nat (length ds).
Proof.
  induction ds as [| x ds IH]; intros H; cbn [value_le length]; [simpl; lia|].
  assert (0 <= x < B) by (apply H; left; reflexivity).
  assert (0 <= value_le B ds) by (apply value_le_nonneg; intros y Hy; apply H; right; exact Hy).
  assert (value_le B ds < B ^ Z.of_nat (length ds))
    by (apply IH; intros y Hy; apply H; right; exact Hy).
  rewrite Nat2Z.inj_succ, Z.pow_succ_r by lia.
  nia.
Qed.

Lemma value_le_pos (ds : list Z) :
  (forall x, In x ds -> 0 <= x < B) -> ds <> [] -> last ds 0 <> 0 -> 0 < value_le B ds.
Proof.
  induction ds as [| x ds IH]; intros H Hne Hl; [contradiction|].
  assert (0 <= x < B) by (apply H; left; reflexivity).
  destruct ds as [| y ds'].
  - simpl in Hl |- *; lia.
  - assert (0 < value_le B (y :: ds')).
    { apply IH; [intros z Hz; apply H; right; exact Hz|discriminate|exact Hl]. }
    change (0 < x + B * value_le B (y :: ds')); nia.
Qed.

Lemma digits_value_le (ds : list Z) (fuel : nat) :
  (forall x, In x ds -> 0 <= x < B) -> last ds 0 <> 0 -> (length ds <= fuel)%nat ->
  digits_le B fuel (value_le B ds) = ds.
Proof.
  revert fuel; induction ds as [| x ds IH]; intros fuel H Hl Hlen.
  - destruct fuel; reflexivity.
  - destruct fuel as [| f]; simpl in Hlen; [lia|].
    assert (Hx : 0 <= x < B) by (apply H; left; reflexivity).
    assert (Hds : forall y, In y ds -> 0 <= y < B) by (intros y Hy; apply H; right; exact Hy).
    assert (Hpos : 0 < value_le B (x :: ds)).
    { apply value_le_pos; [exact H|discriminate|exact Hl]. }
    change (digits_le B (S f) (x + B * value_le B ds) = x :: ds).
    change (0 < x + B * value_le B ds) in Hpos.
    simpl; destruct (Z.leb_spec (x + B * value_le B ds) 0); [lia|].
    rewrite <- (Z.mod_unique_pos (x + B * value_le B ds) B (value_le B ds) x Hx) by ring.
    rewrite <- (Z.div_unique_pos (x + B * value_le B ds) B (value_le B ds) x Hx) by ring.
    destruct ds as [| y ds'].
    + destruct f; reflexivity.
    + rewrite IH; [reflexivity|exact Hds|exact Hl|simpl in Hlen |- *; lia].
Qed.

(** The last little-endian digit of [n], with [B ^ k <= n < B ^ (k + 1)], is
    [n / B ^ k]. *)
Lemma digits_le_top (k : nat) (fuel : nat) (n : Z) :
  (k < fuel)%nat -> B ^ Z.of_nat k <= n < B ^ Z.of_nat (S k) ->
  exists l, digits_le B fuel n = (l ++ [n / B ^ Z.of_nat k])%list.
Proof.
  revert fuel n; induction k as [| k IH]; intros fuel n Hf Hn.
  - destruct fuel as [| f]; [lia|].
    change (B ^ 0 <= n < B ^ 1) in Hn; rewrite Z.pow_0_r, Z.pow_1_r in Hn.
    change (Z.of_nat 0) with 0; rewrite Z.pow_0_r.
    simpl; destruct (Z.leb_spec n 0); [lia|].
    rewrite Z.mod_small, Z.div_small, Z.div_1_r by lia.
    exists []; destruct f; reflexivity.
  - destruct fuel as [| f]; [lia|].
    assert (Hk : 0 < B ^ Z.of_nat k) by (apply Z.pow_pos_nonneg; lia).
    rewrite !Nat2Z.inj_succ, !Z.pow_succ_r in Hn by lia.
    rewrite Nat2Z.inj_succ, Z.pow_succ_r by lia.
    simpl; destruct (Z.leb_spec n 0); [nia|].
    destruct (IH f (n / B)) as [l Hl]; [lia| |].
    + rewrite Nat2Z.inj_succ, Z.pow_succ_r by lia.
      split; [apply Z.div_le_lower_bound; lia|apply Z.div_lt_upper_bound; lia].
    + exists (n mod B :: l); rewrite Hl, Z.div_div by lia.
      reflexivity.
Qed.

End DigitsFacts.

(** ** The version-0 CID of a SHA-256 digest *)

Lemma byte_of_Z_of_byte (b : byte) : byte_of_Z (Z_of_byte b) = b.
Proof. destruct b; reflexivity. Qed.

Lemma Z_of_byte_range (b : byte) : 0 <= Z_of_byte b < 256.
Proof. split; [apply Z.leb_le|apply Z.ltb_lt]; destruct b; reflexivity. Qed.

(** [Buffer.from(h, 'hex')] reads back what [hexlify] writes. *)
Lemma Buffer_from_hex_body (bs : list byte) : Buffer_from_hex (hex_body bs) = bs.
Proof.
  induction bs as [| b bs IH]; [reflexivity|].
  cbn [hex_body]; rewrite <- IH at 2; generalize (hex_body bs); intros s.
  destruct b; reflexivity.
Qed.

Lemma substring_0_all (s : string) (m : nat) :
  (String.length s <= m)%nat -> substring 0 m s = s.
Proof.
  revert m; induction s as [| c s IH]; intros [| m] H; simpl in *; try reflexivity; [lia|].
  rewrite IH by lia; reflexivity.
Qed.

Lemma decodeQmHash_hexlify (d : list byte) :
  decodeQmHash (hexlify d) = Multiformats.base58_encode (x12 :: x20 :: d).
Proof.
  unfold decodeQmHash, hexlify.
  change ("0x" ++ hex_body d) with (String "0" (String "x" (hex_body d))).
  cbn [String.length substring]; rewrite substring_0_all by lia.
  rewrite Buffer_from_hex_body; reflexivity.
Qed.

Lemma decode_sha256_v0 (d : list byte) : length d = 32%nat ->
  Multiformats.decode (x12 :: x20 :: d) =
  Ok (Multiformats.createV0 (Multiformats.mkDigest 18 32 d (x12 :: x20 :: d))).
Proof.
  intros Hd.
  do 32 (destruct d as [| ? d]; [discriminate Hd|]).
  destruct d; [|simpl in Hd; lia].
  reflexivity.
Qed.

Lemma abi_encode_bytes32_digest (d : list byte) : length d = 32%nat ->
  EthersAbi.abi_encode ["bytes32"] [JBytes d] = Ok (hexlify d).
Proof.
  intros Hd.
  do 32 (destruct d as [| ? d]; [discriminate Hd|]).
  destruct d; [|simpl in Hd; lia].
  reflexivity.
Qed.

Lemma value_le_app (B : Z) (l1 l2 : list Z) :
  Digits.value_le B (l1 ++ l2) =
  Digits.value_le B l1 + B ^ Z.of_nat (length l1) * Digits.value_le B l2.
Proof.
  induction l1 as [| x l1 IH]; cbn [app Digits.value_le length].
  - change (Z.of_nat 0) with 0; rewrite Z.pow_0_r; ring.
  - rewrite IH, Nat2Z.inj_succ, Z.pow_succ_r by lia; ring.
Qed.

Lemma value_be_cons (B x : Z) (ds : list Z) :
  Digits.value_be B (x :: ds) = x * B ^ Z.of_nat (length ds) + Digits.value_be B ds.
Proof.
  unfold Digits.value_be; cbn [rev]; rewrite value_le_app, length_rev; cbn [Digits.value_le]; ring.
Qed.

Lemma in_rev_map_byte (x : Z) (bs : list byte) :
  In x (rev (map Z_of_byte bs)) -> 0 <= x < 256.
Proof. rewrite <- in_rev, in_map_iff; intros [b [<- _]]; apply Z_of_byte_range. Qed.

Lemma fuel_for_spec (n : Z) : 0 <= n -> n < 2 ^ Z.of_nat (Digits.fuel_for n).
Proof.
  intros Hn; unfold Digits.fuel_for.
  rewrite Z2Nat.id by (pose proof (Z.log2_nonneg n); lia).
  destruct (Z.eq_dec n 0) as [->|Hn0]; [reflexivity|].
  destruct (Z.log2_spec n) as [_ H]; [lia|exact H].
Qed.

Lemma fuel_for_lower (k n : Z) :
  0 <= k -> 2 ^ k <= n -> (Z.to_nat (k + 1) <= Digits.fuel_for n)%nat.
Proof.
  intros Hk H; unfold Digits.fuel_for.
  assert (k <= Z.log2 n).
  { rewrite <- (Z.log2_pow2 k) by lia; apply Z.log2_le_mono; exact H. }
  apply Z2Nat.inj_le; lia.
Qed.

Lemma char_index_alphabet_char (x : Z) : 0 <= x < 58 ->
  Multiformats.char_index (Multiformats.alphabet_char Multiformats.BASE58_ALPHABET x)
    Multiformats.BASE58_ALPHABET = Some x.
Proof.
  intros Hx.
  assert (Hk : exists k, x = Z.of_nat k /\ (k < 58)%nat) by (exists (Z.to_nat x); lia).
  destruct Hk as [k [-> Hk]].
  do 58 (destruct k as [| k]; [reflexivity|]).
  lia.
Qed.

Lemma chars_digits_alphabet (ds : list Z) :
  (forall x, In x ds -> 0 <= x < 58) ->
  Multiformats.chars_digits Multiformats.BASE58_ALPHABET
    (string_of_list_ascii (map (Multiformats.alphabet_char Multiformats.BASE58_ALPHABET) ds))
  = Some ds.
Proof.
  induction ds as [| x ds IH]; intros H; [reflexivity|].
  cbn [map string_of_list_ascii Multiformats.chars_digits].
  rewrite char_index_alphabet_char, IH; [reflexivity| |].
  - intros y Hy; apply H; right; exact Hy.
  - apply H; left; reflexivity.
Qed.

(** The number behind the multihash [18, 32, d] of a 32-byte digest [d]
    starts, in base 58, with the digit 23, which the alphabet writes ['Q']. *)
Lemma sha256_multihash_value (d : list byte) : length d = 32%nat ->
  2 ^ 264 <= Digits.value_be 256 (map Z_of_byte (x12 :: x20 :: d)) /\
  23 * 58 ^ 45 <= Digits.value_be 256 (map Z_of_byte (x12 :: x20 :: d)) < 24 * 58 ^ 45.
Proof.
  intros Hd; cbn [map]; rewrite !value_be_cons; cbn [length]; rewrite length_map, Hd.
  assert (Hv : 0 <= Digits.value_be 256 (map Z_of_byte d) < 256 ^ 32).
  { unfold Digits.value_be; split.
    - apply value_le_nonneg; [lia|]; intros x Hx; exact (in_rev_map_byte x d Hx).
    - pose proof (value_le_bound 256 ltac:(lia) (rev (map Z_of_byte d))
                    (fun x Hx => in_rev_map_byte x d Hx)) as Hb.
      rewrite length_rev, length_map, Hd in Hb; exact Hb. }
  change (Z_of_byte x12) with 18; change (Z_of_byte x20) with 32.
  change (Z.of_nat (S 32)) with 33; change (Z.of_nat 32) with 32.
  assert (A1 : 2 ^ 264 <= 18 * 256 ^ 33 + 32 * 256 ^ 32) by (apply Z.leb_le; vm_compute; reflexivity).
  assert (A2 : 23 * 58 ^ 45 <= 18 * 256 ^ 33 + 32 * 256 ^ 32) by (apply Z.leb_le; vm_compute; reflexivity).
  assert (A3 : 18 * 256 ^ 33 + 32 * 256 ^ 32 + 256 ^ 32 <= 24 * 58 ^ 45)
    by (apply Z.leb_le; vm_compute; reflexivity).
  lia.
Qed.

Lemma map_byte_of_Z_of_byte (bs : list byte) : map byte_of_Z (map Z_of_byte bs) = bs.
Proof.
  induction bs as [| b bs IH]; [reflexivity|].
  cbn [map]; rewrite byte_of_Z_of_byte, IH; reflexivity.
Qed.

(** The base58 text of the multihash [18, 32, d] starts with ['Q'], and the
    base-x decoder reads it back. *)
Lemma base58_encode_sha256 (d : list byte) : length d = 32%nat ->
  exists rest,
    Multiformats.base58_encode (x12 :: x20 :: d) = String "Q" rest /\
    Multiformats.base58_decode (String "Q" rest) = Ok (x12 :: x20 :: d).
Proof.
  intros Hd.
  destruct (sha256_multihash_value d Hd) as [Hlow Hn].
  set (n := Digits.value_be 256 (map Z_of_byte (x12 :: x20 :: d))) in *.
  assert (Hfuel : (Z.to_nat (264 + 1) <= Digits.fuel_for n)%nat)
    by exact (fuel_for_lower 264 n ltac:(lia) Hlow).
  change (Z.to_nat (264 + 1)) with 265%nat in Hfuel.
  assert (Hp : 0 < 58 ^ 45) by (apply Z.pow_pos_nonneg; lia).
  assert (E46 : 58 ^ 46 = 58 * 58 ^ 45) by reflexivity.
  destruct (digits_le_top 58 ltac:(lia) 45 (Digits.fuel_for n) n) as [l Hl]; [lia| |].
  { change (Z.of_nat 45) with 45; change (Z.of_nat (S 45)) with 46; lia. }
  assert (Hq : n / 58 ^ Z.of_nat 45 = 23).
  { change (Z.of_nat 45) with 45; symmetry.
    apply (Z.div_unique_pos n (58 ^ 45) 23 (n - 23 * 58 ^ 45)); lia. }
  rewrite Hq in Hl.
  set (L := Digits.digits_le 58 (Digits.fuel_for n) n) in *.
  assert (HL : forall x, In x (rev L) -> 0 <= x < 58).
  { intros x Hx; rewrite <- in_rev in Hx; exact (digits_le_range 58 ltac:(lia) _ _ x Hx). }
  set (rest := string_of_list_ascii
                 (map (Multiformats.alphabet_char Multiformats.BASE58_ALPHABET) (rev l))).
  assert (Hstr : string_of_list_ascii
                   (map (Multiformats.alphabet_char Multiformats.BASE58_ALPHABET) (rev L))
                 = String "Q" rest).
  { rewrite Hl, rev_app_distr; reflexivity. }
  exists rest; split.
  - unfold Multiformats.base58_encode; cbn [Multiformats.count_leading_zero_bytes skipn repeat app].
    exact Hstr.
  - unfold Multiformats.base58_decode; cbn [Multiformats.count_leading_ones repeat app].
    rewrite substring_0_all by lia.
    rewrite <- Hstr, chars_digits_alphabet by exact HL.
    unfold Digits.value_be at 1; rewrite rev_involutive; unfold L.
    rewrite (value_digits_le 58 ltac:(lia) (Digits.fuel_for n) n)
      by (split; [lia|apply fuel_for_spec; lia]).
    assert (Hn' : n = Digits.value_le 256 (rev (map Z_of_byte (x12 :: x20 :: d))))
      by reflexivity.
    unfold Digits.digits_be; rewrite Hn' at 2.
    rewrite (digits_value_le 256 ltac:(lia) (rev (map Z_of_byte (x12 :: x20 :: d))));
      [rewrite rev_involutive, map_byte_of_Z_of_byte; reflexivity| | |].
    + intros x Hx; exact (in_rev_map_byte x _ Hx).
    + change (rev (map Z_of_byte (x12 :: x20 :: d)))
        with (rev (map Z_of_byte (x20 :: d)) ++ [Z_of_byte x12])%list.
      rewrite last_last; discriminate.
    + rewrite length_rev, length_map; cbn [length]; rewrite Hd; lia.
Qed.

Lemma parse_sha256_v0 (d : list byte) : length d = 32%nat ->
  Multiformats.parse (Multiformats.base58_encode (x12 :: x20 :: d)) =
  Ok (Multiformats.createV0 (Multiformats.mkDigest 18 32 d (x12 :: x20 :: d))).
Proof.
  intros Hd; destruct (base58_encode_sha256 d Hd) as [rest [He Hdec]].
  rewrite He; unfold Multiformats.parse.
  cbn -[Multiformats.base58_decode Multiformats.decode].
  rewrite Hdec; cbn -[Multiformats.decode]; exact (decode_sha256_v0 d Hd).
Qed.

(** C8: [decodeQmHash] puts the header [18, 32] (SHA-256, 32 bytes) before
    the digest read from the hex input and writes the result as a version-0
    CID. For every 32-byte SHA-256 digest [d], the version-0 CID string [cid]
    of [d] (base58btc of [18, 32] ++ d, without multibase prefix) is what
    [decodeQmHash (hexlify d)] returns; [CID.parse cid] reads it back as the
    version-0 CID of the multihash [18, 32, d]; [encodeQmHash cid] is the
    bytes32 [hexlify d]; and [decodeQmHash (encodeQmHash cid)] is [cid]. *)
Theorem qmHash_roundtrip (d : list byte) : length d = 32%nat ->
  let cid := Multiformats.base58_encode (x12 :: x20 :: d) in
  decodeQmHash (hexlify d) = cid /\
  Multiformats.parse cid =
    Ok (Multiformats.createV0 (Multiformats.mkDigest 18 32 d (x12 :: x20 :: d))) /\
  encodeQmHash EthersAbi.abi_encode cid = Ok (hexlify d) /\
  (h <- encodeQmHash EthersAbi.abi_encode cid ;; Ok (decodeQmHash h)) = Ok cid.
Proof.
  intros Hd cid.
  assert (Henc : encodeQmHash EthersAbi.abi_encode cid = Ok (hexlify d)).
  { unfold encodeQmHash, cid; rewrite parse_sha256_v0 by exact Hd.
    cbn -[EthersAbi.abi_encode]; exact (abi_encode_bytes32_digest d Hd). }
  split; [exact (decodeQmHash_hexlify d)|].
  split; [exact (parse_sha256_v0 d Hd)|].
  split; [exact Henc|].
  rewrite Henc; exact (f_equal Ok (decodeQmHash_hexlify d)).
Qed.

Lemma qmHash_roundtrip_witness :
  length (repeat x00 32) = 32%nat /\
  (let cid := Multiformats.base58_encode (x12 :: x20 :: repeat x00 32) in
   decodeQmHash (hexlify (repeat x00 32)) = cid /\
   Multiformats.parse cid =
     Ok (Multiformats.createV0
           (Multiformats.mkDigest 18 32 (repeat x00 32) (x12 :: x20 :: repeat x00 32))) /\
   encodeQmHash EthersAbi.abi_encode cid = Ok (hexlify (repeat x00 32)) /\
   (h <- encodeQmHash EthersAbi.abi_encode cid ;; Ok (decodeQmHash h)) = Ok cid).
Proof. split; [reflexivity|apply (qmHash_roundtrip (repeat x00 32)); reflexivity]. Defined.

(** ** Further properties of the encoder *)

(** [defaultAbiCoder.encode(['bytes32'], [v])]: the bytes [arrayify(v)]
    gives, which must be exactly 32. *)
Lemma abi_encode_bytes32 (v : JsValue) :
  EthersAbi.abi_encode ["bytes32"] [v] =
  match arrayify v with
  | Ok bs => if Nat.eqb (length bs) 32 then Ok (hexlify bs) else Err "incorrect data length"
  | Err e => Err e
  end.
Proof.
  unfold EthersAbi.abi_encode; cbn [length Nat.eqb negb].
  rewrite coderOf_bytes32; cbn -[arrayify].
  destruct (arrayify v) as [bs|e]; [|reflexivity].
  cbn [Js.bind].
  destruct (Nat.eqb_spec (length bs) 32) as [E|E].
  - unfold EthersAbi.pad_right; rewrite E; cbn -[hex_body].
    rewrite !app_nil_r; reflexivity.
  - assert (E' : (Z.of_nat (length bs) =? 32) = false) by (apply Z.eqb_neq; lia).
    rewrite E'; reflexivity.
Qed.

(** X1: [encodeQmHash(hash)] throws what [CID.parse] throws; for a CID it
    returns the bytes32 of the multihash digest when that digest has 32 bytes,
    and throws ['incorrect data length'] for a digest of any other size. *)
Theorem encodeQmHash_result (hash : string) :
  encodeQmHash EthersAbi.abi_encode hash =
  match Multiformats.parse hash with
  | Err e => Err e
  | Ok c =>
      let digest := Multiformats.mh_digest (Multiformats.cid_multihash c) in
      if Nat.eqb (length digest) 32 then Ok (hexlify digest) else Err "incorrect data length"
  end.
Proof.
  unfold encodeQmHash; destruct (Multiformats.parse hash) as [c|e]; cbn [Js.bind]; [|reflexivity].
  rewrite abi_encode_bytes32; reflexivity.
Qed.

Lemma hex_pairs_Buffer_from_hex (n : nat) (t : string) (d : list byte) :
  (String.length t <= n)%nat -> hex_pairs t = Some d ->
  Buffer_from_hex t = d /\ String.length t = (2 * length d)%nat.
Proof.
  revert t d; induction n as [| n IH]; intros t d Hlen Hp.
  - destruct t; [injection Hp as <-; split; reflexivity|simpl in Hlen; lia].
  - destruct t as [| a [| b t]]; [injection Hp as <-; split; reflexivity|discriminate Hp|].
    simpl in Hp, Hlen |- *.
    destruct (hex_value a) as [x|]; [|discriminate Hp].
    destruct (hex_value b) as [y|]; [|discriminate Hp].
    destruct (hex_pairs t) as [r|] eqn:Hr; [|discriminate Hp].
    injection Hp as <-.
    destruct (IH t r ltac:(lia) Hr) as [-> ->]; split; [reflexivity|simpl; lia].
Qed.

(** A string that [arrayify] accepts is ['0x'] followed by pairs of
    hexadecimal digits. *)
Lemma arrayify_str_ok (h : string) (d : list byte) :
  arrayify (JStr h) = Ok d ->
  exists t, h = String "0" (String "x" t) /\ all_hex t = true /\
            Buffer_from_hex t = d /\ String.length t = (2 * length d)%nat.
Proof.
  intros H.
  destruct h as [| c1 [| c2 t]]; [discriminate H|
    destruct c1 as [[] [] [] [] [] [] [] []]; discriminate H|].
  destruct c1 as [[] [] [] [] [] [] [] []]; try discriminate H.
  destruct c2 as [[] [] [] [] [] [] [] []]; try discriminate H.
  exists t; cbn [arrayify] in H.
  destruct (all_hex t) eqn:Ha; [|discriminate H].
  destruct (hex_pairs t) as [bs|] eqn:Hp; [|discriminate H].
  injection H as <-.
  destruct (hex_pairs_Buffer_from_hex (String.length t) t bs (le_n _) Hp) as [Hb Hl].
  repeat split; assumption.
Qed.

Lemma decodeQmHash_prefix (a b : ascii) (t : string) :
  decodeQmHash (String a (String b t)) =
  Multiformats.base58_encode (x12 :: x20 :: Buffer_from_hex t).
Proof.
  unfold decodeQmHash; cbn [String.length substring].
  rewrite substring_0_all by lia; reflexivity.
Qed.

(** X2: a bytes32 hex string (of either case) sent through [decodeQmHash]
    and back through [encodeQmHash] comes back as the lowercase hex string of
    the same 32 bytes. *)
Theorem encodeQmHash_decodeQmHash (h : string) (d : list byte) :
  arrayify (JStr h) = Ok d -> length d = 32%nat ->
  encodeQmHash EthersAbi.abi_encode (decodeQmHash h) = Ok (hexlify d).
Proof.
  intros Ha Hd.
  destruct (arrayify_str_ok h d Ha) as [t [-> [_ [Hb _]]]].
  rewrite decodeQmHash_prefix, Hb.
  unfold encodeQmHash; rewrite parse_sha256_v0 by exact Hd.
  cbn -[EthersAbi.abi_encode]; exact (abi_encode_bytes32_digest d Hd).
Qed.

Lemma encodeQmHash_decodeQmHash_witness :
  arrayify (JStr ("0x" ++ string_of_list_ascii (repeat "A"%char 64))) = Ok (repeat xaa 32) /\
  length (repeat xaa 32) = 32%nat /\
  encodeQmHash EthersAbi.abi_encode (decodeQmHash ("0x" ++ string_of_list_ascii (repeat "A"%char 64)))
  = Ok (hexlify (repeat xaa 32)).
Proof.
  assert (Ha : arrayify (JStr ("0x" ++ string_of_list_ascii (repeat "A"%char 64)))
               = Ok (repeat xaa 32)) by reflexivity.
  split; [exact Ha|split; [reflexivity|]].
  exact (encodeQmHash_decodeQmHash _ _ Ha eq_refl).
Defined.

(** X3: in the content-hash path, the version-0 CID string that
    [decodeQmHash] makes of a 32-byte value is turned back into that bytes32
    value by [decodeIpfsValue]. *)
Theorem decodeIpfsValue_qmHash (d : list byte) : length d = 32%nat ->
  decodeIpfsValue EthersAbi.abi_encode (JStr (decodeQmHash (hexlify d))) = Ok (JStr (hexlify d)).
Proof.
  intros Hd; rewrite decodeQmHash_hexlify.
  destruct (base58_encode_sha256 d Hd) as [rest [He _]].
  unfold decodeIpfsValue.
  replace (isBytesLike (JStr (Multiformats.base58_encode (x12 :: x20 :: d)))) with false
    by (rewrite He; reflexivity).
  rewrite parse_sha256_v0 by exact Hd.
  cbn -[EthersAbi.abi_encode]; rewrite abi_encode_bytes32_digest by exact Hd; reflexivity.
Qed.

Lemma decodeIpfsValue_qmHash_witness :
  length (repeat x00 32) = 32%nat /\
  decodeIpfsValue EthersAbi.abi_encode (JStr (decodeQmHash (hexlify (repeat x00 32))))
  = Ok (JStr (hexlify (repeat x00 32))).
Proof. split; [reflexivity|apply decodeIpfsValue_qmHash; reflexivity]. Defined.

Lemma isBytesLike_arrayify_str (h : string) (d : list byte) :
  arrayify (JStr h) = Ok d -> isBytesLike (JStr h) = true.
Proof.
  intros Ha; destruct (arrayify_str_ok h d Ha) as [t [-> [Hx [_ Hl]]]].
  cbn [isBytesLike isHexString String.length]; rewrite Hx, Hl; cbn [andb].
  rewrite Nat.even_succ_succ, Nat.even_mul; reflexivity.
Qed.

(** X4: in the content-hash path, a hex string of exactly 32 bytes is kept
    as it is, letter case included. *)
Theorem decodeIpfsValue_hex32 (h : string) (d : list byte) :
  arrayify (JStr h) = Ok d -> length d = 32%nat ->
  decodeIpfsValue EthersAbi.abi_encode (JStr h) = Ok (JStr h).
Proof.
  intros Ha Hd; unfold decodeIpfsValue, encodeBytes32Value.
  rewrite (isBytesLike_arrayify_str h d Ha), abi_encode_bytes32, Ha, Hd; reflexivity.
Qed.

Lemma decodeIpfsValue_hex32_witness :
  arrayify (JStr ("0x" ++ string_of_list_ascii (repeat "A"%char 64))) = Ok (repeat xaa 32) /\
  length (repeat xaa 32) = 32%nat /\
  decodeIpfsValue EthersAbi.abi_encode (JStr ("0x" ++ string_of_list_ascii (repeat "A"%char 64)))
  = Ok (JStr ("0x" ++ string_of_list_ascii (repeat "A"%char 64))).
Proof.
  assert (Ha : arrayify (JStr ("0x" ++ string_of_list_ascii (repeat "A"%char 64)))
               = Ok (repeat xaa 32)) by reflexivity.
  split; [exact Ha|split; [reflexivity|]].
  exact (decodeIpfsValue_hex32 _ _ Ha eq_refl).
Defined.

Lemma toUtf8Bytes_length (s : string) : (String.length s <= length (toUtf8Bytes s))%nat.
Proof.
  induction s as [| c s IH]; [simpl; lia|].
  cbn [toUtf8Bytes String.length]; rewrite length_app.
  unfold utf8_of_char; destruct (_ <? 128); simpl; lia.
Qed.

(** X5: in the content-hash path, a hex string whose bytes are not 32 is
    not padded as bytes: its text goes to [formatBytes32String], so that the
    ASCII characters ['0'], ['x'], ... are stored; from 15 bytes on, the text
    is longer than 31 characters and the call throws. *)
Theorem decodeIpfsValue_hex_not32 (h : string) (d : list byte) :
  arrayify (JStr h) = Ok d -> length d <> 32%nat ->
  decodeIpfsValue EthersAbi.abi_encode (JStr h) = formatBytes32String_js (JStr h) /\
  ((15 <= length d)%nat -> exists e, decodeIpfsValue EthersAbi.abi_encode (JStr h) = Err e).
Proof.
  intros Ha Hd.
  assert (E : decodeIpfsValue EthersAbi.abi_encode (JStr h) = formatBytes32String_js (JStr h)).
  { unfold decodeIpfsValue, encodeBytes32Value.
    rewrite (isBytesLike_arrayify_str h d Ha), abi_encode_bytes32, Ha.
    apply Nat.eqb_neq in Hd; rewrite Hd; reflexivity. }
  split; [exact E|intros H15].
  rewrite E; exists "bytes32 string must be less than 32 bytes".
  destruct (arrayify_str_ok h d Ha) as [t [-> [_ [_ Hl]]]].
  pose proof (toUtf8Bytes_length (String "0" (String "x" t))) as Hu.
  cbn [String.length] in Hu; rewrite Hl in Hu.
  unfold formatBytes32String_js; cbn [toUtf8Bytes_js Js.bind].
  replace (31 <? Z.of_nat (length (toUtf8Bytes (String "0" (String "x" t))))) with true
    by (symmetry; apply Z.ltb_lt; lia).
  reflexivity.
Qed.

Lemma decodeIpfsValue_hex_not32_witness :
  arrayify (JStr ("0x" ++ string_of_list_ascii (repeat "a"%char 30))) = Ok (repeat xaa 15) /\
  length (repeat xaa 15) <> 32%nat /\
  (decodeIpfsValue EthersAbi.abi_encode (JStr ("0x" ++ string_of_list_ascii (repeat "a"%char 30)))
   = formatBytes32String_js (JStr ("0x" ++ string_of_list_ascii (repeat "a"%char 30))) /\
   ((15 <= length (repeat xaa 15))%nat -> exists e,
      decodeIpfsValue EthersAbi.abi_encode
        (JStr ("0x" ++ string_of_list_ascii (repeat "a"%char 30))) = Err e)).
Proof.
  assert (Ha : arrayify (JStr ("0x" ++ string_of_list_ascii (repeat "a"%char 30)))
               = Ok (repeat xaa 15)) by reflexivity.
  assert (Hn : length (repeat xaa 15) <> 32%nat) by discriminate.
  split; [exact Ha|split; [exact Hn|]].
  exact (decodeIpfsValue_hex_not32 _ _ Ha Hn).
Defined.

Lemma digits_le_nth (B : Z) (HB : 2 <= B) (j fuel : nat) (n : Z) :
  (j < fuel)%nat -> 0 <= n ->
  nth j (Digits.digits_le B fuel n) 0 = (n / B ^ Z.of_nat j) mod B.
Proof.
  revert fuel n; induction j as [| j IH]; intros [| f] n Hf Hn; try lia.
  - cbn [Digits.digits_le]; change (Z.of_nat 0) with 0; rewrite Z.pow_0_r, Z.div_1_r.
    destruct (Z.leb_spec n 0) as [H0|H0]; [|reflexivity].
    replace n with 0 by lia; reflexivity.
  - cbn [Digits.digits_le].
    destruct (Z.leb_spec n 0) as [H0|H0].
    + replace n with 0 by lia; rewrite Z.div_0_l, Z.mod_0_l by (try apply Z.pow_nonzero; lia).
      destruct j; reflexivity.
    + cbn [nth]; rewrite IH by (try apply Z.div_pos; lia).
      rewrite Nat2Z.inj_succ, Z.pow_succ_r, Z.div_div by (try apply Z.pow_pos_nonneg; lia).
      reflexivity.
Qed.

Lemma digits_le_length (B : Z) (HB : 2 <= B) (k fuel : nat) (n : Z) :
  (k < fuel)%nat -> B ^ Z.of_nat k <= n < B ^ Z.of_nat (S k) ->
  length (Digits.digits_le B fuel n) = S k.
Proof.
  revert fuel n; induction k as [| k IH]; intros [| f] n Hf Hn; try lia.
  - change (B ^ 0 <= n < B ^ 1) in Hn; rewrite Z.pow_0_r, Z.pow_1_r in Hn.
    cbn [Digits.digits_le]; destruct (Z.leb_spec n 0); [lia|].
    rewrite Z.div_small by lia; destruct f; reflexivity.
  - assert (Hk : 0 < B ^ Z.of_nat k) by (apply Z.pow_pos_nonneg; lia).
    rewrite !Nat2Z.inj_succ, !Z.pow_succ_r in Hn by lia.
    cbn [Digits.digits_le]; destruct (Z.leb_spec n 0); [nia|].
    cbn [length]; f_equal; apply IH; [lia|].
    rewrite Nat2Z.inj_succ, Z.pow_succ_r by lia.
    split; [apply Z.div_le_lower_bound; lia|apply Z.div_lt_upper_bound; lia].
Qed.

Lemma length_string_of_list_ascii (l : list ascii) :
  String.length (string_of_list_ascii l) = length l.
Proof. induction l as [| c l IH]; [reflexivity|simpl; rewrite IH; reflexivity]. Qed.

Lemma sha256_multihash_bounds (d : list byte) : length d = 32%nat ->
  18 * 256 ^ 33 + 32 * 256 ^ 32 <= Digits.value_be 256 (map Z_of_byte (x12 :: x20 :: d))
  < 18 * 256 ^ 33 + 32 * 256 ^ 32 + 256 ^ 32.
Proof.
  intros Hd; cbn [map]; rewrite !value_be_cons; cbn [length]; rewrite length_map, Hd.
  assert (Hv : 0 <= Digits.value_be 256 (map Z_of_byte d) < 256 ^ 32).
  { unfold Digits.value_be; split.
    - apply value_le_nonneg; [lia|]; intros x Hx; exact (in_rev_map_byte x d Hx).
    - pose proof (value_le_bound 256 ltac:(lia) (rev (map Z_of_byte d))
                    (fun x Hx => in_rev_map_byte x d Hx)) as Hb.
      rewrite length_rev, length_map, Hd in Hb; exact Hb. }
  change (Z_of_byte x12) with 18; change (Z_of_byte x20) with 32.
  change (Z.of_nat (S 32)) with 33; change (Z.of_nat 32) with 32.
  lia.
Qed.

(** X6: for a 32-byte value, [decodeQmHash] returns a string of 46
    characters that starts with ['Qm'] and that [isCID] accepts. *)
Theorem decodeQmHash_v0_text (d : list byte) : length d = 32%nat ->
  isCID (decodeQmHash (hexlify d)) = true /\
  String.length (decodeQmHash (hexlify d)) = 46%nat /\
  substring 0 2 (decodeQmHash (hexlify d)) = "Qm".
Proof.
  intros Hd; rewrite decodeQmHash_hexlify.
  split; [unfold isCID; rewrite parse_sha256_v0 by exact Hd; reflexivity|].
  pose proof (sha256_multihash_bounds d Hd) as Hn.
  set (n := Digits.value_be 256 (map Z_of_byte (x12 :: x20 :: d))) in *.
  set (L := Digits.digits_le 58 (Digits.fuel_for n) n).
  assert (He : Multiformats.base58_encode (x12 :: x20 :: d) =
               string_of_list_ascii
                 (map (Multiformats.alphabet_char Multiformats.BASE58_ALPHABET) (rev L)))
    by reflexivity.
  rewrite He.
  assert (Hlow : 2 ^ 264 <= n).
  { assert (2 ^ 264 <= 18 * 256 ^ 33 + 32 * 256 ^ 32)
      by (apply Z.leb_le; vm_compute; reflexivity). lia. }
  assert (Hfuel : (Z.to_nat (264 + 1) <= Digits.fuel_for n)%nat)
    by exact (fuel_for_lower 264 n ltac:(lia) Hlow).
  change (Z.to_nat (264 + 1)) with 265%nat in Hfuel.
  assert (B1 : 58 ^ 45 <= 18 * 256 ^ 33 + 32 * 256 ^ 32)
    by (apply Z.leb_le; vm_compute; reflexivity).
  assert (B2 : 18 * 256 ^ 33 + 32 * 256 ^ 32 + 256 ^ 32 <= 58 ^ 46)
    by (apply Z.leb_le; vm_compute; reflexivity).
  assert (B3 : 1378 * 58 ^ 44 <= 18 * 256 ^ 33 + 32 * 256 ^ 32)
    by (apply Z.leb_le; vm_compute; reflexivity).
  assert (B4 : 18 * 256 ^ 33 + 32 * 256 ^ 32 + 256 ^ 32 <= 1379 * 58 ^ 44)
    by (apply Z.leb_le; vm_compute; reflexivity).
  assert (Hp44 : 0 < 58 ^ 44) by (apply Z.pow_pos_nonneg; lia).
  assert (Hlen : length L = 46%nat).
  { apply (digits_le_length 58 ltac:(lia) 45); [lia|].
    change (Z.of_nat 45) with 45; change (Z.of_nat (S 45)) with 46; lia. }
  assert (D45 : nth 45 L 0 = 23).
  { unfold L; rewrite digits_le_nth by lia; change (Z.of_nat 45) with 45.
    assert (E45 : 58 ^ 45 = 58 * 58 ^ 44) by reflexivity.
    rewrite <- (Z.div_unique_pos n (58 ^ 45) 23 (n - 23 * 58 ^ 45)); [reflexivity|nia|ring]. }
  assert (D44 : nth 44 L 0 = 44).
  { unfold L; rewrite digits_le_nth by lia; change (Z.of_nat 44) with 44.
    rewrite <- (Z.div_unique_pos n (58 ^ 44) 1378 (n - 1378 * 58 ^ 44)); [reflexivity|lia|ring]. }
  assert (H0 : nth 0 (rev L) 0 = 23) by (rewrite rev_nth, Hlen by lia; exact D45).
  assert (H1 : nth 1 (rev L) 0 = 44) by (rewrite rev_nth, Hlen by lia; exact D44).
  assert (Hrl : length (rev L) = 46%nat) by (rewrite length_rev; exact Hlen).
  destruct (rev L) as [| a [| b rest]]; [discriminate Hrl|discriminate Hrl|].
  cbn [nth] in H0, H1; subst a b.
  split; [rewrite length_string_of_list_ascii, length_map; exact Hrl|destruct rest; reflexivity].
Qed.

Lemma decodeQmHash_v0_text_witness :
  length (repeat x00 32) = 32%nat /\
  (isCID (decodeQmHash (hexlify (repeat x00 32))) = true /\
   String.length (decodeQmHash (hexlify (repeat x00 32))) = 46%nat /\
   substring 0 2 (decodeQmHash (hexlify (repeat x00 32))) = "Qm").
Proof. split; [reflexivity|apply decodeQmHash_v0_text; reflexivity]. Defined.

Lemma strip_ws_idem (s : string) : strip_ws (strip_ws s) = strip_ws s.
Proof.
  induction s as [| c s IH]; [reflexivity|]; cbn [strip_ws].
  destruct (is_ws c) eqn:E; [exact IH|cbn [strip_ws]; rewrite E, IH; reflexivity].
Qed.

(** X7: [encodeData] compares the caller's types with all whitespace
    removed: removing whitespace from the types beforehand never changes its
    result, bytes or error message. *)
Theorem encodeData_type_whitespace
  (coder : list string -> list JsValue -> result string)
  (schema : list SchemaItemWithSignature) (params : list SchemaItem) :
  encodeData coder schema
    (map (fun p => mkSchemaItem (si_name p) (strip_ws (si_type p)) (si_value p)) params)
  = encodeData coder schema params.
Proof.
  unfold encodeData; rewrite length_map.
  replace (encodeItems coder schema
             (map (fun p => mkSchemaItem (si_name p) (strip_ws (si_type p)) (si_value p)) params))
    with (encodeItems coder schema params); [reflexivity|].
  revert params; induction schema as [| s schema IH]; intros [| p params]; try reflexivity.
  cbn [map encodeItems]; rewrite <- IH.
  unfold encodeItem; cbn [si_type si_name si_value]; rewrite strip_ws_idem; reflexivity.
Qed.

Ltac bind_ok H :=
  repeat match type of H with
         | context [Js.bind ?m _] =>
             let E := fresh "E" in
             destruct m eqn:E; cbn [Js.bind] in H; try discriminate H
         end.

Lemma encodeItem_not_bytes32 (coder : list string -> list JsValue -> result string)
  (s : SchemaItemWithSignature) (p : SchemaItem) (v : JsValue) :
  s_type s <> "bytes32" -> encodeItem coder s p = Ok v -> v = si_value p.
Proof.
  intros Hs H; unfold encodeItem in H.
  apply String.eqb_neq in Hs; rewrite Hs in H; cbn [andb] in H.
  destruct (_ && _ && _); [discriminate H|].
  destruct (negb _); [discriminate H|].
  injection H as <-; reflexivity.
Qed.

(** X8: when no field of the schema has type [bytes32], whatever
    [encodeData] returns is what the ABI coder returns for the signatures and
    the caller's values, unchanged. *)
Theorem encodeData_passes_values (coder : list string -> list JsValue -> result string)
  (schema : list SchemaItemWithSignature) (params : list SchemaItem) (r : string) :
  (forall s, In s schema -> s_type s <> "bytes32") ->
  encodeData coder schema params = Ok r ->
  coder (signatures schema) (map si_value params) = Ok r.
Proof.
  intros Hs H; unfold encodeData in H.
  destruct (Nat.eqb_spec (length params) (length schema)) as [Hlen|]; [|discriminate H].
  destruct (encodeItems coder schema params) as [data|e] eqn:Hd; [|discriminate H].
  cbn [negb Js.bind] in H; rewrite <- H; f_equal.
  clear H; revert params data Hd Hlen; induction schema as [| s schema IH];
    intros [| p params] data Hd Hlen; cbn [encodeItems length] in Hd, Hlen; try discriminate Hlen.
  - injection Hd as <-; reflexivity.
  - bind_ok Hd; injection Hd as <-; cbn [map].
    rewrite (encodeItem_not_bytes32 coder s p a (Hs s (or_introl eq_refl)) E).
    rewrite (IH (fun s' Hin => Hs s' (or_intror Hin)) params a0 E0 ltac:(lia)); reflexivity.
Qed.

Lemma encodeData_passes_values_witness :
  (forall s, In s [mkSchemaItemWithSignature (Some "a") "uint8" "uint8 a" (JStr "0")] ->
             s_type s <> "bytes32") /\
  ethers_encodeData [mkSchemaItemWithSignature (Some "a") "uint8" "uint8 a" (JStr "0")]
    [mkSchemaItem (Some "a") "uint8" (JNum 7)]
  = Ok "0x0000000000000000000000000000000000000000000000000000000000000007" /\
  EthersAbi.abi_encode (signatures [mkSchemaItemWithSignature (Some "a") "uint8" "uint8 a" (JStr "0")])
    (map si_value [mkSchemaItem (Some "a") "uint8" (JNum 7)])
  = Ok "0x0000000000000000000000000000000000000000000000000000000000000007".
Proof.
  assert (Hs : forall s, In s [mkSchemaItemWithSignature (Some "a") "uint8" "uint8 a" (JStr "0")] ->
                         s_type s <> "bytes32")
    by (intros s [<-|[]]; discriminate).
  assert (He : ethers_encodeData [mkSchemaItemWithSignature (Some "a") "uint8" "uint8 a" (JStr "0")]
                 [mkSchemaItem (Some "a") "uint8" (JNum 7)]
               = Ok "0x0000000000000000000000000000000000000000000000000000000000000007")
    by (vm_compute; reflexivity).
  split; [exact Hs|split; [exact He|]].
  exact (encodeData_passes_values _ _ _ _ Hs He).
Defined.

(** X10: the empty schema: the constructor accepts it, [encodeData([])]
    returns ['0x'], and [decodeData] returns no record for every string that
    [arrayify] accepts, whatever its length, and throws otherwise. *)
Theorem empty_schema_behaviour (data : string) :
  ethers_constructor "" = Ok [] /\
  ethers_encodeData [] [] = Ok "0x" /\
  ethers_decodeData [] data =
    match arrayify (JStr data) with Ok _ => Ok [] | Err e => Err e end.
Proof.
  split; [vm_compute; reflexivity|split; [vm_compute; reflexivity|]].
  unfold ethers_decodeData, decodeData, EthersAbi.abi_decode; cbn [signatures map mapM Js.bind].
  destruct (arrayify (JStr data)); reflexivity.
Qed.

(** X11: for a [bytes32] field not named ['ipfsHash'], a value that
    [arrayify] reads (["0x"] and an even number of hexadecimal digits, either
    case) is pushed unchanged, not padded, for every caller type the type
    check accepts (the field's type, its signature, or ['ipfsHash']). So for
    an unnamed [bytes32] field, such a value of any length other than 32 bytes
    makes [encodeData] throw ['incorrect data length']. *)
Theorem encodeData_bytes32_hex_unpadded
  (coder : list string -> list JsValue -> result string)
  (s : SchemaItemWithSignature) (p : SchemaItem) (h : string) (d : list byte) (v0 : JsValue) :
  s_type s = "bytes32" -> s_name s <> Some "ipfsHash" ->
  (strip_ws (si_type p) = s_type s \/ strip_ws (si_type p) = s_signature s \/
   strip_ws (si_type p) = "ipfsHash") ->
  si_name p = s_name s -> si_value p = JStr h ->
  arrayify (JStr h) = Ok d ->
  encodeItem coder s p = Ok (JStr h) /\
  (forall t, (strip_ws t = "bytes32" \/ strip_ws t = "ipfsHash") -> length d <> 32%nat ->
   ethers_encodeData [mkSchemaItemWithSignature None "bytes32" "bytes32" v0]
     [mkSchemaItem None t (JStr h)] = Err "incorrect data length").
Proof.
  intros Ht Hn Hpt Hpn Hv Ha.
  assert (Hbl : isBytesLike (JStr h) = true) by exact (isBytesLike_arrayify_str h d Ha).
  assert (Hitem : forall (c : list string -> list JsValue -> result string)
                         (s' : SchemaItemWithSignature) (p' : SchemaItem),
             s_type s' = "bytes32" -> s_name s' <> Some "ipfsHash" ->
             (strip_ws (si_type p') = s_type s' \/ strip_ws (si_type p') = s_signature s' \/
              strip_ws (si_type p') = "ipfsHash") ->
             si_name p' = s_name s' ->
             si_value p' = JStr h -> encodeItem c s' p' = Ok (JStr h)).
  { intros c s' p' Ht' Hn' Hpt' Hpn' Hv'.
    unfold encodeItem.
    rewrite (encodeItem_type_check_passes s' p')
      by (destruct Hpt' as [H|[H|H]]; [left|right; left|right; right]; tauto).
    rewrite Ht', Hpn', Hv', eqb_name_refl, Hbl; cbn [String.eqb negb andb].
    replace (eqb_name (s_name s') (Some "ipfsHash")) with false; [reflexivity|].
    destruct (s_name s') as [n'|]; [|reflexivity].
    symmetry; apply String.eqb_neq; intros ->; apply Hn'; reflexivity. }
  split; [exact (Hitem coder s p Ht Hn Hpt Hpn Hv)|intros t Ht0 Hd].
  unfold ethers_encodeData, encodeData; cbn [length Nat.eqb negb encodeItems].
  rewrite (Hitem EthersAbi.abi_encode (mkSchemaItemWithSignature None "bytes32" "bytes32" v0)
             (mkSchemaItem None t (JStr h)) eq_refl
             ltac:(discriminate) ltac:(cbn [si_type s_type s_signature]; tauto) eq_refl eq_refl).
  cbn [Js.bind signatures map s_signature].
  rewrite abi_encode_bytes32, Ha; apply Nat.eqb_neq in Hd; rewrite Hd; reflexivity.
Qed.

Lemma encodeData_bytes32_hex_unpadded_witness :
  encodeItem EthersAbi.abi_encode (mkSchemaItemWithSignature (Some "tag") "bytes32" "bytes32 tag" (JStr ""))
    (mkSchemaItem (Some "tag") " ipfsHash" (JStr "0x12AB")) = Ok (JStr "0x12AB") /\
  ethers_encodeData [mkSchemaItemWithSignature None "bytes32" "bytes32" (JStr "")]
    [mkSchemaItem None "bytes32 " (JStr "0x12AB")] = Err "incorrect data length".
Proof.
  destruct (encodeData_bytes32_hex_unpadded EthersAbi.abi_encode
              (mkSchemaItemWithSignature (Some "tag") "bytes32" "bytes32 tag" (JStr ""))
              (mkSchemaItem (Some "tag") " ipfsHash" (JStr "0x12AB")) "0x12AB" [x12; xab] (JStr "")
              eq_refl ltac:(discriminate) ltac:(right; right; reflexivity) eq_refl eq_refl
              ltac:(reflexivity)) as [H1 H2].
  split; [exact H1|].
  apply H2; [left; reflexivity|discriminate].
Defined.

(** *** Integer words *)

Lemma Z_of_byte_of_Z (n : Z) : Z_of_byte (byte_of_Z n) = n mod 256.
Proof.
  unfold byte_of_Z, Z_of_byte.
  assert (Hm : 0 <= n mod 256 < 256) by (apply Z.mod_pos_bound; lia).
  destruct (Byte.of_N (Z.to_N (n mod 256))) as [b|] eqn:E.
  - apply Byte.to_of_N in E; rewrite E, Z2N.id; lia.
  - apply Byte.of_N_None_iff in E; lia.
Qed.

Lemma fixed_be_length (w : nat) (n : Z) : length (EthersAbi.fixed_be w n) = w.
Proof.
  revert n; induction w as [| w IH]; intros n; [reflexivity|].
  cbn [EthersAbi.fixed_be]; rewrite length_app, IH; simpl; lia.
Qed.

(** A word of [w] bytes reads back the integer it was written from. *)
Lemma bytes_value_fixed_be (w : nat) (n : Z) :
  0 <= n < 256 ^ Z.of_nat w -> EthersAbi.bytes_value (EthersAbi.fixed_be w n) = n.
Proof.
  revert n; induction w as [| w IH]; intros n Hn.
  - change (Z.of_nat 0) with 0 in Hn; rewrite Z.pow_0_r in Hn.
    replace n with 0 by lia; reflexivity.
  - unfold EthersAbi.bytes_value, Digits.value_be.
    cbn [EthersAbi.fixed_be]; rewrite map_app, rev_app_distr; cbn [map rev app Digits.value_le].
    fold (Digits.value_be 256 (map Z_of_byte (EthersAbi.fixed_be w (n / 256)))).
    fold (EthersAbi.bytes_value (EthersAbi.fixed_be w (n / 256))).
    rewrite Z_of_byte_of_Z, IH.
    + pose proof (Z.div_mod n 256); lia.
    + rewrite Nat2Z.inj_succ, Z.pow_succ_r in Hn by lia.
      split; [apply Z.div_pos; lia|].
      apply Z.div_lt_upper_bound; lia.
Qed.

Lemma hex_body_ok (bs : list byte) :
  all_hex (hex_body bs) = true /\ hex_pairs (hex_body bs) = Some bs.
Proof.
  induction bs as [| b bs [IH1 IH2]]; [split; reflexivity|].
  cbn [hex_body]; revert IH1 IH2; generalize (hex_body bs); intros s IH1 IH2.
  destruct b; cbn [all_hex hex_pairs]; rewrite ?IH1, ?IH2; split; reflexivity.
Qed.

(** [arrayify] reads back what [hexlify] writes. *)
Lemma arrayify_hexlify (bs : list byte) : arrayify (JStr (hexlify bs)) = Ok bs.
Proof.
  destruct (hex_body_ok bs) as [H1 H2].
  unfold hexlify; cbn [append arrayify]; rewrite H1, H2; reflexivity.
Qed.

(** *** Fields of type [uint256] *)

Lemma mapM_repeat {A B} (f : A -> result B) (x : A) (y : B) (k : nat) :
  f x = Ok y -> mapM f (repeat x k) = Ok (repeat y k).
Proof.
  intros H; induction k as [| k IH]; [reflexivity|].
  cbn [repeat mapM]; rewrite H, IH; reflexivity.
Qed.

Lemma mapM_Forall2 {A B C} (f : A -> result C) (g : B -> C) (xs : list A) (ys : list B) :
  Forall2 (fun x y => f x = Ok (g y)) xs ys -> mapM f xs = Ok (map g ys).
Proof.
  induction 1 as [| x y xs ys Hxy _ IH]; [reflexivity|].
  cbn [mapM map]; rewrite Hxy, IH; reflexivity.
Qed.

Lemma mapM_combine_repeat {A B C} (g : A * B -> result C) (x : A) (vs : list B) :
  mapM g (combine (repeat x (length vs)) vs) = mapM (fun v => g (x, v)) vs.
Proof.
  induction vs as [| v vs IH]; [reflexivity|].
  cbn [length repeat combine mapM]; rewrite IH; reflexivity.
Qed.

Lemma coderOf_uint256 : EthersAbi.coderOf "uint256" = Ok (EthersAbi.CNumber 32 false).
Proof. vm_compute; reflexivity. Qed.

Lemma encode_tuple (cs : list EthersAbi.Coder) (v : JsValue) :
  EthersAbi.encode (EthersAbi.CTuple cs) v =
  EthersAbi.pack (map (fun c' => (EthersAbi.dynamic c', EthersAbi.encode c')) cs) v.
Proof. reflexivity. Qed.

Lemma decode_tuple (cs : list EthersAbi.Coder) (data : list byte) (pos : nat) :
  EthersAbi.decode (EthersAbi.CTuple cs) data pos =
  EthersAbi.unpack (map (fun c' => (EthersAbi.dynamic c', EthersAbi.decode c')) cs) data pos.
Proof. reflexivity. Qed.

Lemma encode_uint256 (v : JsValue) (n : Z) :
  EthersAbi.BigNumber_from v = Ok n -> 0 <= n < 2 ^ 256 ->
  EthersAbi.encode (EthersAbi.CNumber 32 false) v = Ok (EthersAbi.fixed_be 32 n).
Proof.
  intros Hv Hn; cbn [EthersAbi.encode]; rewrite Hv; cbn [Js.bind].
  change (8 * 32) with 256.
  destruct ((n <? 0) || (2 ^ 256 - 1 <? n)) eqn:E.
  - apply orb_true_iff in E; destruct E as [E|E]; apply Z.ltb_lt in E; lia.
  - unfold EthersAbi.writeValue.
    destruct (Z.ltb_spec n (2 ^ 256)); [reflexivity|lia].
Qed.

Lemma fold_static_parts
  (F : list byte * list byte * nat -> bool * list byte -> list byte * list byte * nat)
  (HF : forall hs ts off b, F (hs, ts, off) (false, b) = ((hs ++ b)%list, ts, off))
  (ns : list Z) : forall hs ts off,
  fold_left F (map (fun n => (false, EthersAbi.fixed_be 32 n)) ns) (hs, ts, off) =
  ((hs ++ flat_map (EthersAbi.fixed_be 32) ns)%list, ts, off).
Proof.
  induction ns as [| n ns IH]; intros hs ts off; cbn [map fold_left flat_map].
  - rewrite app_nil_r; reflexivity.
  - rewrite HF, IH, app_assoc; reflexivity.
Qed.

(** [defaultAbiCoder.encode] of [uint256] values in range: one 32-byte
    big-endian word per value. *)
Lemma abi_encode_uint256 (vs : list JsValue) (ns : list Z) :
  Forall2 (fun v n => EthersAbi.BigNumber_from v = Ok n /\ 0 <= n < 2 ^ 256) vs ns ->
  EthersAbi.abi_encode (repeat "uint256" (length vs)) vs =
  Ok (hexlify (flat_map (EthersAbi.fixed_be 32) ns)).
Proof.
  intros H; unfold EthersAbi.abi_encode.
  rewrite repeat_length, Nat.eqb_refl; cbn [negb].
  rewrite (mapM_repeat _ _ _ _ coderOf_uint256); cbn [Js.bind].
  rewrite encode_tuple, map_repeat; unfold EthersAbi.pack.
  rewrite repeat_length, Nat.eqb_refl; cbn [negb].
  rewrite mapM_combine_repeat.
  rewrite (mapM_Forall2 _ (fun n => (false, EthersAbi.fixed_be 32 n)) vs ns).
  2: { eapply Forall2_impl; [|exact H]; intros v n [Hv Hn]; cbn [EthersAbi.dynamic].
       rewrite (encode_uint256 v n Hv Hn); reflexivity. }
  cbn [Js.bind]; rewrite fold_static_parts by (intros; reflexivity).
  rewrite app_nil_r; reflexivity.
Qed.

Lemma readValue_word (data pre post : list byte) (n : Z) :
  data = (pre ++ EthersAbi.fixed_be 32 n ++ post)%list -> 0 <= n < 2 ^ 256 ->
  EthersAbi.readValue data (length pre) = Ok (n, (length pre + 32)%nat).
Proof.
  intros -> Hn; unfold EthersAbi.readValue, EthersAbi.readBytes.
  change (Z.to_nat ((32 + 31) / 32 * 32)) with 32%nat.
  change (Z.to_nat 32) with 32%nat.
  rewrite !length_app, fixed_be_length.
  destruct (Nat.ltb_spec (length pre + (32 + length post)) (length pre + 32)); [lia|].
  cbn [Js.bind].
  rewrite skipn_app, skipn_all, Nat.sub_diag; cbn [skipn app].
  rewrite firstn_app, fixed_be_length, Nat.sub_diag.
  rewrite (firstn_all2 (n := 32%nat) (EthersAbi.fixed_be 32 n)) by (rewrite fixed_be_length; lia).
  cbn [firstn]; rewrite app_nil_r.
  rewrite bytes_value_fixed_be; [reflexivity|].
  replace (256 ^ Z.of_nat 32) with (2 ^ 256) by reflexivity; exact Hn.
Qed.

Lemma fold_static_words {D : Type} (data : list byte) (x : D)
  (F : result (list JsValue * nat) -> D -> result (list JsValue * nat))
  (HF : forall vs pre n post, data = (pre ++ EthersAbi.fixed_be 32 n ++ post)%list ->
        0 <= n < 2 ^ 256 ->
        F (Ok (vs, length pre)) x = Ok ((vs ++ [JBig n])%list, (length pre + 32)%nat)) :
  forall ns pre vs, data = (pre ++ flat_map (EthersAbi.fixed_be 32) ns)%list ->
  Forall (fun n => 0 <= n < 2 ^ 256) ns ->
  fold_left F (repeat x (length ns)) (Ok (vs, length pre)) =
  Ok ((vs ++ map JBig ns)%list, length data).
Proof.
  induction ns as [| n ns IH]; intros pre vs Hd Hns; cbn [length repeat fold_left map].
  - rewrite app_nil_r, Hd; cbn [flat_map]; rewrite app_nil_r; reflexivity.
  - pose proof (Forall_inv Hns) as Hn; pose proof (Forall_inv_tail Hns) as Hns'.
    cbn [flat_map] in Hd.
    rewrite (HF vs pre n (flat_map (EthersAbi.fixed_be 32) ns) Hd Hn).
    replace (length pre + 32)%nat with (length (pre ++ EthersAbi.fixed_be 32 n))
      by (rewrite length_app, fixed_be_length; reflexivity).
    rewrite (IH (pre ++ EthersAbi.fixed_be 32 n)%list (vs ++ [JBig n])%list).
    + rewrite <- app_assoc; reflexivity.
    + rewrite Hd, <- app_assoc; reflexivity.
    + exact Hns'.
Qed.

(** [defaultAbiCoder.decode] of [uint256] words: the values, as
    [BigNumber]s. *)
Lemma abi_decode_uint256 (ns : list Z) :
  Forall (fun n => 0 <= n < 2 ^ 256) ns ->
  EthersAbi.abi_decode (repeat "uint256" (length ns)) (hexlify (flat_map (EthersAbi.fixed_be 32) ns))
  = Ok (map JBig ns).
Proof.
  intros Hns; unfold EthersAbi.abi_decode.
  rewrite (mapM_repeat _ _ _ _ coderOf_uint256), arrayify_hexlify; cbn [Js.bind].
  rewrite decode_tuple, map_repeat; unfold EthersAbi.unpack.
  set (data := flat_map (EthersAbi.fixed_be 32) ns).
  match goal with |- context [fold_left ?F (repeat ?x _) _] =>
    assert (HF : forall vs pre n post, data = (pre ++ EthersAbi.fixed_be 32 n ++ post)%list ->
        0 <= n < 2 ^ 256 ->
        F (Ok (vs, length pre)) x = Ok ((vs ++ [JBig n])%list, (length pre + 32)%nat));
    [| pose proof (fold_static_words data x F HF ns [] [] eq_refl Hns) as Hf] end.
  - intros vs pre n post Hd Hn; cbn [Js.bind EthersAbi.dynamic EthersAbi.decode].
    rewrite (readValue_word data pre post n Hd Hn); cbn [Js.bind].
    change (8 * 32) with 256; rewrite Z.mod_small by exact Hn; reflexivity.
  - cbn [length app] in Hf; rewrite Hf; reflexivity.
Qed.

Lemma signatures_uint256 (schema : list SchemaItemWithSignature) :
  Forall (fun s => s_name s = None /\ s_type s = "uint256" /\ s_signature s = "uint256") schema ->
  signatures schema = repeat "uint256" (length schema).
Proof.
  induction 1 as [| s schema [_ [_ Hsig]] _ IH]; [reflexivity|].
  unfold signatures in *; cbn [map repeat length]; rewrite Hsig, IH; reflexivity.
Qed.

Lemma encodeItems_uint256 (coder : list string -> list JsValue -> result string)
  (schema : list SchemaItemWithSignature) (params : list SchemaItem) :
  Forall (fun s => s_name s = None /\ s_type s = "uint256" /\ s_signature s = "uint256") schema ->
  Forall (fun p => si_name p = None /\ strip_ws (si_type p) = "uint256") params ->
  length schema = length params ->
  encodeItems coder schema params = Ok (map si_value params).
Proof.
  intros Hs; revert params; induction Hs as [| s schema [Hn [Ht _]] _ IH];
    intros [| p params] Hp Hl; try discriminate Hl; [reflexivity|].
  pose proof (Forall_inv Hp) as [Hpn Hpt]; pose proof (Forall_inv_tail Hp) as Hp'.
  cbn [encodeItems map]; unfold encodeItem at 1.
  rewrite Hpt, Ht, Hn, Hpn; cbn -[encodeItems].
  rewrite IH by (assumption || (cbn in Hl; lia)); reflexivity.
Qed.

Lemma FunctionFragment_uint256 :
  EthersFragments.FunctionFragment_from "func(uint256)" = Ok [mkParamType None "uint256" None].
Proof. vm_compute; reflexivity. Qed.

Lemma decodeItems_uint256 (schema : list SchemaItemWithSignature) (ns : list Z) :
  Forall (fun s => s_name s = None /\ s_type s = "uint256" /\ s_signature s = "uint256") schema ->
  length schema = length ns ->
  decodeItems EthersFragments.FunctionFragment_from schema (map JBig ns) =
  Ok (map (fun n => mkSchemaDecodedItem None "uint256" "uint256" (mkSchemaItem None "uint256" (JBig n))) ns).
Proof.
  intros Hs; revert ns; induction Hs as [| s schema [Hn [Ht Hsig]] _ IH];
    intros [| n ns] Hl; try discriminate Hl; [reflexivity|].
  cbn [decodeItems map hd tl]; unfold decodeItem at 1.
  rewrite Hsig, Hn, Ht; cbn [append]; rewrite FunctionFragment_uint256.
  cbn -[decodeItems]; rewrite IH by (cbn in Hl; lia); reflexivity.
Qed.

Lemma Forall2_Forall_l {A B} (P : A -> Prop) (R : A -> B -> Prop) (xs : list A) (ys : list B) :
  (forall x y, R x y -> P x) -> Forall2 R xs ys -> Forall P xs.
Proof. intros H; induction 1; constructor; eauto. Qed.

Lemma Forall2_Forall_r {A B} (P : B -> Prop) (R : A -> B -> Prop) (xs : list A) (ys : list B) :
  (forall x y, R x y -> P y) -> Forall2 R xs ys -> Forall P ys.
Proof. intros H; induction 1; constructor; eauto. Qed.

(** X12: for a schema of unnamed [uint256] fields and values that
    [BigNumber.from] reads as integers in [0, 2^256), [encodeData] writes one
    32-byte big-endian word per value, and [decodeData] of that output gives
    back every value, as a [BigNumber], with its field's type and
    signature. *)
Theorem uint256_fields_roundtrip (schema : list SchemaItemWithSignature)
  (params : list SchemaItem) (ns : list Z) :
  Forall (fun s => s_name s = None /\ s_type s = "uint256" /\ s_signature s = "uint256") schema ->
  length schema = length params ->
  Forall2 (fun p n => si_name p = None /\ strip_ws (si_type p) = "uint256" /\
                      EthersAbi.BigNumber_from (si_value p) = Ok n /\ 0 <= n < 2 ^ 256) params ns ->
  ethers_encodeData schema params = Ok (hexlify (flat_map (EthersAbi.fixed_be 32) ns)) /\
  ethers_decodeData schema (hexlify (flat_map (EthersAbi.fixed_be 32) ns)) =
  Ok (map (fun n => mkSchemaDecodedItem None "uint256" "uint256"
                      (mkSchemaItem None "uint256" (JBig n))) ns).
Proof.
  intros Hs Hl Hp.
  assert (Hln : length params = length ns) by exact (Forall2_length Hp).
  split.
  - unfold ethers_encodeData, encodeData.
    rewrite Hl, Nat.eqb_refl; cbn [negb].
    rewrite (encodeItems_uint256 _ schema params Hs) by
      (first [exact Hl | eapply Forall2_Forall_l; [|exact Hp]; cbn; tauto]).
    cbn [Js.bind]; rewrite (signatures_uint256 schema Hs), Hl, <- (length_map si_value params).
    apply abi_encode_uint256.
    clear -Hp; induction Hp as [| p n params ns [_ [_ H]] _ IH]; constructor; assumption.
  - unfold ethers_decodeData, decodeData.
    rewrite (signatures_uint256 schema Hs), Hl, Hln, abi_decode_uint256.
    + cbn [Js.bind]; apply decodeItems_uint256; [exact Hs | lia].
    + eapply Forall2_Forall_r; [|exact Hp]; cbn; tauto.
Qed.

Lemma uint256_fields_roundtrip_witness :
  Forall (fun s => s_name s = None /\ s_type s = "uint256" /\ s_signature s = "uint256")
    [mkSchemaItemWithSignature None "uint256" "uint256" (JStr "0");
     mkSchemaItemWithSignature None "uint256" "uint256" (JStr "0")] /\
  length [mkSchemaItemWithSignature None "uint256" "uint256" (JStr "0");
          mkSchemaItemWithSignature None "uint256" "uint256" (JStr "0")] =
  length [mkSchemaItem None "uint256" (JStr "42"); mkSchemaItem None " uint256" (JNum 7)] /\
  Forall2 (fun p n => si_name p = None /\ strip_ws (si_type p) = "uint256" /\
                      EthersAbi.BigNumber_from (si_value p) = Ok n /\ 0 <= n < 2 ^ 256)
    [mkSchemaItem None "uint256" (JStr "42"); mkSchemaItem None " uint256" (JNum 7)] [42; 7] /\
  (ethers_encodeData
     [mkSchemaItemWithSignature None "uint256" "uint256" (JStr "0");
      mkSchemaItemWithSignature None "uint256" "uint256" (JStr "0")]
     [mkSchemaItem None "uint256" (JStr "42"); mkSchemaItem None " uint256" (JNum 7)]
   = Ok (hexlify (flat_map (EthersAbi.fixed_be 32) [42; 7])) /\
   ethers_decodeData
     [mkSchemaItemWithSignature None "uint256" "uint256" (JStr "0");
      mkSchemaItemWithSignature None "uint256" "uint256" (JStr "0")]
     (hexlify (flat_map (EthersAbi.fixed_be 32) [42; 7])) =
   Ok (map (fun n => mkSchemaDecodedItem None "uint256" "uint256"
                       (mkSchemaItem None "uint256" (JBig n))) [42; 7])).
Proof.
  assert (H1 : Forall (fun s => s_name s = None /\ s_type s = "uint256" /\ s_signature s = "uint256")
    [mkSchemaItemWithSignature None "uint256" "uint256" (JStr "0");
     mkSchemaItemWithSignature None "uint256" "uint256" (JStr "0")])
    by (repeat constructor).
  assert (H2 : Forall2 (fun p n => si_name p = None /\ strip_ws (si_type p) = "uint256" /\
                      EthersAbi.BigNumber_from (si_value p) = Ok n /\ 0 <= n < 2 ^ 256)
    [mkSchemaItem None "uint256" (JStr "42"); mkSchemaItem None " uint256" (JNum 7)] [42; 7])
    by (repeat apply Forall2_cons; try apply Forall2_nil;
        (split; [reflexivity|split; [reflexivity|split; [reflexivity|split; [lia|reflexivity]]]])).
  split; [exact H1|]; split; [reflexivity|]; split; [exact H2|].
  apply uint256_fields_roundtrip; [exact H1 | reflexivity | exact H2].
Defined.

Lemma readValue_any (data : list byte) (pos : nat) :
  EthersAbi.readValue data pos =
  if (length data <? pos + 32)%nat then Err "data out-of-bounds"
  else Ok (EthersAbi.bytes_value (firstn 32 (skipn pos data)), (pos + 32)%nat).
Proof.
  unfold EthersAbi.readValue, EthersAbi.readBytes.
  change (Z.to_nat ((32 + 31) / 32 * 32)) with 32%nat; change (Z.to_nat 32) with 32%nat.
  destruct (length data <? pos + 32)%nat; reflexivity.
Qed.

Lemma fold_left_err {D : Type} (F : result (list JsValue * nat) -> D -> result (list JsValue * nat))
  (HF : forall e d, F (Err e) d = Err e) (ds : list D) (e : string) :
  fold_left F ds (Err e) = Err e.
Proof. induction ds as [| d ds IH]; cbn [fold_left]; [reflexivity|]; rewrite HF; exact IH. Qed.

Section WordFold.
Variable D : Type.
Variable data : list byte.
Variable x : D.
Variable F : result (list JsValue * nat) -> D -> result (list JsValue * nat).
Hypothesis HF_err : forall e d, F (Err e) d = Err e.
Hypothesis HF_ok : forall vs pos, (pos + 32 <= length data)%nat ->
  exists w, F (Ok (vs, pos)) x = Ok ((vs ++ [JBig w])%list, (pos + 32)%nat).
Hypothesis HF_short : forall vs pos, (length data < pos + 32)%nat ->
  exists e, F (Ok (vs, pos)) x = Err e.

Lemma fold_words_ok (k : nat) : forall vs pos, (pos + 32 * k <= length data)%nat ->
  exists ws, length ws = k /\
  fold_left F (repeat x k) (Ok (vs, pos)) = Ok ((vs ++ map JBig ws)%list, (pos + 32 * k)%nat).
Proof.
  induction k as [| k IH]; intros vs pos Hk.
  - exists []; rewrite app_nil_r, Nat.add_0_r; split; reflexivity.
  - destruct (HF_ok vs pos ltac:(lia)) as [w Hw].
    destruct (IH (vs ++ [JBig w])%list (pos + 32)%nat ltac:(lia)) as [ws [Hl Hws]].
    exists (w :: ws); split; [cbn; rewrite Hl; reflexivity|].
    cbn [repeat fold_left]; rewrite Hw, Hws, <- app_assoc.
    replace (pos + 32 + 32 * k)%nat with (pos + 32 * S k)%nat by lia; reflexivity.
Qed.

Lemma fold_words_short (k : nat) : forall vs pos, (pos <= length data)%nat ->
  (length data < pos + 32 * k)%nat ->
  exists e, fold_left F (repeat x k) (Ok (vs, pos)) = Err e.
Proof.
  induction k as [| k IH]; intros vs pos Hp Hk; [lia|].
  cbn [repeat fold_left].
  destruct (Nat.le_gt_cases (pos + 32) (length data)) as [Hle|Hgt].
  - destruct (HF_ok vs pos Hle) as [w Hw]; rewrite Hw; apply IH; lia.
  - destruct (HF_short vs pos Hgt) as [e He]; rewrite He; exists e; apply fold_left_err, HF_err.
Qed.

End WordFold.

(** X13: for a schema of unnamed [uint256] fields, [isEncodedDataValid]
    accepts exactly the data that [arrayify] reads as at least 32 bytes per
    field; bytes past those words are ignored. *)
Theorem isEncodedDataValid_uint256 (schema : list SchemaItemWithSignature) (data : string) :
  Forall (fun s => s_name s = None /\ s_type s = "uint256" /\ s_signature s = "uint256") schema ->
  isEncodedDataValid EthersFragments.FunctionFragment_from EthersAbi.abi_decode schema data =
  match arrayify (JStr data) with
  | Ok bs => (32 * length schema <=? length bs)%nat
  | Err _ => false
  end.
Proof.
  intros Hs; unfold isEncodedDataValid, decodeData, EthersAbi.abi_decode.
  rewrite (signatures_uint256 schema Hs), (mapM_repeat _ _ _ _ coderOf_uint256); cbn [Js.bind].
  destruct (arrayify (JStr data)) as [bs|e] eqn:Ea; cbn [Js.bind]; [|reflexivity].
  rewrite decode_tuple, map_repeat; unfold EthersAbi.unpack.
  match goal with |- context [fold_left ?F (repeat ?x _) _] =>
    assert (HF_err : forall e d, F (Err e) d = Err e) by reflexivity;
    assert (HF_ok : forall vs pos, (pos + 32 <= length bs)%nat ->
      exists w, F (Ok (vs, pos)) x = Ok ((vs ++ [JBig w])%list, (pos + 32)%nat));
    [| assert (HF_short : forall vs pos, (length bs < pos + 32)%nat ->
      exists e, F (Ok (vs, pos)) x = Err e);
    [| destruct (Nat.leb_spec (32 * length schema) (length bs)) as [Hle|Hgt];
       [ destruct (fold_words_ok _ bs x F HF_ok (length schema) [] O Hle) as [ws [Hl Hf]]
       | destruct (fold_words_short _ bs x F HF_err HF_ok HF_short (length schema) [] O (Nat.le_0_l _) Hgt)
           as [e Hf] ] ] ]
  end.
  - intros vs pos Hp; cbn [Js.bind EthersAbi.dynamic EthersAbi.decode].
    rewrite readValue_any; destruct (Nat.ltb_spec (length bs) (pos + 32)); [lia|].
    cbn [Js.bind]; eexists; reflexivity.
  - intros vs pos Hp; cbn [Js.bind EthersAbi.dynamic EthersAbi.decode].
    rewrite readValue_any; destruct (Nat.ltb_spec (length bs) (pos + 32)); [|lia].
    cbn [Js.bind]; eexists; reflexivity.
  - rewrite Hf; cbn [Js.bind fst app].
    rewrite decodeItems_uint256 by (first [exact Hs | lia]); reflexivity.
  - rewrite Hf; reflexivity.
Qed.

Lemma isEncodedDataValid_uint256_witness :
  Forall (fun s => s_name s = None /\ s_type s = "uint256" /\ s_signature s = "uint256")
    [mkSchemaItemWithSignature None "uint256" "uint256" (JStr "0")] /\
  isEncodedDataValid EthersFragments.FunctionFragment_from EthersAbi.abi_decode
    [mkSchemaItemWithSignature None "uint256" "uint256" (JStr "0")] "0x0102" =
  match arrayify (JStr "0x0102") with
  | Ok bs => (32 * length [mkSchemaItemWithSignature None "uint256" "uint256" (JStr "0")]
              <=? length bs)%nat
  | Err _ => false
  end.
Proof.
  assert (H : Forall (fun s => s_name s = None /\ s_type s = "uint256" /\ s_signature s = "uint256")
    [mkSchemaItemWithSignature None "uint256" "uint256" (JStr "0")]) by (repeat constructor).
  split; [exact H | exact (isEncodedDataValid_uint256 _ "0x0102" H)].
Defined.
